(** * linux-server MCP server: the session and tool-dispatch layer

  A shallow embedding of [src/index.ts].  JavaScript strings are modelled
  as Rocq strings holding the UTF-8 bytes of the text, thrown values as
  [JsError] records, promises by the way they settle, and the process-wide
  [connections] map as a [gmap] threaded through the session operations. *)

From Stdlib Require Import ZArith Ascii String List Bool Lia DecimalString DecimalPos.
From stdpp Require Import base option strings gmap list.

Open Scope string_scope.
Set Warnings "-register-all".

(** ** JavaScript primitives used by the server *)

Module Js.

Definition dquote : ascii := ascii_of_nat 34.
Definition backslash : ascii := ascii_of_nat 92.
Definition newline : ascii := ascii_of_nat 10.
Definition nl : string := String newline "".

(** Values that can reach the server as tool arguments (JSON data), plus
    [undefined] for a property that is not there.  [JNum] covers the
    integral numbers. *)
Inductive JsValue :=
| JUndefined
| JNull
| JBool (b : bool)
| JNum (z : Z)
| JStr (s : string)
| JArr (items : list JsValue)
| JObj (fields : list (string * JsValue)).

(** ToBoolean. *)
Definition truthy (v : JsValue) : bool :=
  match v with
  | JUndefined | JNull => false
  | JBool b => b
  | JNum z => negb (z =? 0)%Z
  | JStr s => negb (String.eqb s "")
  | JArr _ | JObj _ => true
  end.

(** The decimal digits of an integer.  This is how a number prints as long
    as it is a safe integer (magnitude at most 2^53 - 1); beyond that range
    numbers are rounded and, from 10^21 on, printed with an exponent, which
    is not modelled: statements about the printed form of a number say so
    with a bound. *)
Definition Z_to_string (z : Z) : string := NilZero.string_of_int (Z.to_int z).

Fixpoint join (sep : string) (parts : list string) : string :=
  match parts with
  | [] => ""
  | [p] => p
  | p :: rest => p +:+ sep +:+ join sep rest
  end.

(** [String(v)]: ToString of a value.  Array elements that are [null] or
    [undefined] print as the empty string, an object that inherits its
    [toString] prints as [[object Object]].  The values on which this is
    what [String] gives are those of [plain] below: on an object with a
    property of its own named [toString], [String] throws a TypeError
    instead. *)
Fixpoint toString (v : JsValue) : string :=
  match v with
  | JUndefined => "undefined"
  | JNull => "null"
  | JBool true => "true"
  | JBool false => "false"
  | JNum z => Z_to_string z
  | JStr s => s
  | JArr items =>
      join ","
        ((fix elems (l : list JsValue) : list string :=
            match l with
            | [] => []
            | JUndefined :: r | JNull :: r => "" :: elems r
            | x :: r => toString x :: elems r
            end) items)
  | JObj _ => "[object Object]"
  end.

(** The values that [String] converts and that [toString] prints as
    [String] does: numbers that are safe integers, objects without a
    property of their own named [toString] (as data, such a property holds
    no function, and the conversion fails), arrays of such values. *)
Fixpoint plain (v : JsValue) : bool :=
  match v with
  | JUndefined | JNull | JBool _ | JStr _ => true
  | JNum z => (Z.abs z <=? 9007199254740991)%Z
  | JArr items =>
      (fix all (l : list JsValue) : bool :=
         match l with
         | [] => true
         | x :: r => plain x && all r
         end) items
  | JObj fields => negb (existsb (fun kv => String.eqb (fst kv) "toString") fields)
  end.

(** [a || b]. *)
Definition or_else (a b : JsValue) : JsValue := if truthy a then a else b.

(** [!s] for a string-or-undefined: true for [undefined] and for [""]. *)
Definition str_falsy (s : string) : bool := String.eqb s "".

Definition opt_falsy (o : option string) : bool :=
  match o with
  | None => true
  | Some s => str_falsy s
  end.

(** *** JSON.stringify on a string *)

Definition hex_digit (n : nat) : ascii :=
  nth n (list_ascii_of_string "0123456789abcdef") "0"%char.

Definition json_escape_char (c : ascii) : string :=
  let n := nat_of_ascii c in
  if (n =? 34)%nat then String backslash (String dquote "")
  else if (n =? 92)%nat then String backslash (String backslash "")
  else if (n =? 8)%nat then String backslash "b"
  else if (n =? 12)%nat then String backslash "f"
  else if (n =? 10)%nat then String backslash "n"
  else if (n =? 13)%nat then String backslash "r"
  else if (n =? 9)%nat then String backslash "t"
  else if (n <? 32)%nat then
    String backslash
      ("u00" +:+ String (hex_digit (n / 16)) (String (hex_digit (n mod 16)) ""))
  else String c "".

Fixpoint json_escape (s : string) : string :=
  match s with
  | "" => ""
  | String c rest => json_escape_char c +:+ json_escape rest
  end.

Definition JSON_stringify (s : string) : string :=
  String dquote (json_escape s +:+ String dquote "").

(** *** parseInt with no radix argument *)

(** [JInt z] is the number whose value is the integer [z].  [parseInt]
    below gives the integer that the digits denote; the language rounds it
    to the nearest number once its magnitude exceeds 2^53 - 1, so the model
    is exact for safe integers, and statements about the value parsed carry
    that bound. *)
Inductive JsNumber :=
| NaN
| JInt (z : Z).

Definition is_ascii_space (c : ascii) : bool :=
  let n := nat_of_ascii c in
  ((9 <=? n) && (n <=? 13) || (n =? 32))%nat.

Definition b2 (c1 c2 : ascii) (n1 n2 : nat) : bool :=
  ((nat_of_ascii c1 =? n1) && (nat_of_ascii c2 =? n2))%nat.

(** The white space of the language outside ASCII, as UTF-8:
    U+00A0; U+1680, U+2000..U+200A, U+2028, U+2029, U+202F, U+205F,
    U+3000, U+FEFF. *)
Definition is_space2 (c1 c2 : ascii) : bool := b2 c1 c2 194 160.

Definition is_space3 (c1 c2 c3 : ascii) : bool :=
  let n3 := nat_of_ascii c3 in
  (b2 c1 c2 225 154 && (n3 =? 128)
   || b2 c1 c2 226 128
      && ((128 <=? n3) && (n3 <=? 138) || (n3 =? 168) || (n3 =? 169) || (n3 =? 175))
   || b2 c1 c2 226 129 && (n3 =? 159)
   || b2 c1 c2 227 128 && (n3 =? 128)
   || b2 c1 c2 239 187 && (n3 =? 191))%nat.

Fixpoint trim_start (s : string) : string :=
  match s with
  | String c1 r1 =>
      if is_ascii_space c1 then trim_start r1
      else
        match r1 with
        | String c2 r2 =>
            if is_space2 c1 c2 then trim_start r2
            else
              match r2 with
              | String c3 r3 =>
                  if is_space3 c1 c2 c3 then trim_start r3 else s
              | "" => s
              end
        | "" => s
        end
  | "" => s
  end.

Definition digit_value (c : ascii) : option Z :=
  let n := Z.of_nat (nat_of_ascii c) in
  if ((48 <=? n) && (n <=? 57))%Z then Some (n - 48)%Z
  else if ((97 <=? n) && (n <=? 122))%Z then Some (n - 87)%Z
  else if ((65 <=? n) && (n <=? 90))%Z then Some (n - 55)%Z
  else None.

(** The longest prefix of digits below [radix], folded into its value;
    [None] when that prefix is empty. *)
Fixpoint digits_prefix (radix : Z) (acc : option Z) (s : string) : option Z :=
  match s with
  | "" => acc
  | String c rest =>
      match digit_value c with
      | Some d =>
          if (d <? radix)%Z
          then digits_prefix radix (Some (default 0%Z acc * radix + d)%Z) rest
          else acc
      | None => acc
      end
  end.

Definition strip_sign (s : string) : Z * string :=
  match s with
  | String "-" rest => ((-1)%Z, rest)
  | String "+" rest => (1%Z, rest)
  | _ => (1%Z, s)
  end.

Definition strip_hex (s : string) : Z * string :=
  match s with
  | String "0" (String "x" rest) | String "0" (String "X" rest) => (16%Z, rest)
  | _ => (10%Z, s)
  end.

Definition parseInt (input : string) : JsNumber :=
  let '(sign, s1) := strip_sign (trim_start input) in
  let '(radix, s2) := strip_hex s1 in
  match digits_prefix radix None s2 with
  | None => NaN
  | Some n => JInt (sign * n)
  end.

Definition number_toString (n : JsNumber) : string :=
  match n with
  | NaN => "NaN"
  | JInt z => Z_to_string z
  end.

(** *** Error objects and their string form *)

Record JsError := mkError { err_name : string; err_message : string }.

(** [new Error(msg)]. *)
Definition Error (msg : string) : JsError := mkError "Error" msg.

(** [Error.prototype.toString], which is what [`${error}`] calls. *)
Definition error_toString (e : JsError) : string :=
  if String.eqb (err_name e) "" then err_message e
  else if String.eqb (err_message e) "" then err_name e
  else err_name e +:+ ": " +:+ err_message e.

End Js.

(** ** How a promise settles *)

Module Promise.
Import Js.

(** The fate of a promise: fulfilled with a value, rejected with a thrown
    error, or never settled (the remote end never answers).  The last case
    is not a state of the promise: while it is pending, an emitter emits
    [error] with no listener registered for it, which throws the error out
    of the event loop, an uncaught exception that ends the process (there is
    no [uncaughtException] handler). *)
Inductive Settled (A : Type) :=
| Fulfilled (a : A)
| Rejected (e : JsError)
| Pending
| Uncaught (e : JsError).

Arguments Fulfilled {A} a.
Arguments Rejected {A} e.
Arguments Pending {A}.
Arguments Uncaught {A} e.

(** Synchronous code: it returns or throws. *)
Inductive Thrown (A : Type) :=
| Return (a : A)
| Throw (e : JsError).

Arguments Return {A} a.
Arguments Throw {A} e.

Fixpoint collect {A} (slots : list (option A)) : option (list A) :=
  match slots with
  | [] => Some []
  | Some v :: rest =>
      match collect rest with
      | Some vs => Some (v :: vs)
      | None => None
      end
  | None :: _ => None
  end.

(** [Promise.all]: results are stored at the index of the promise that
    produced them; the combined promise is fulfilled when the last slot is
    filled and rejected by the first rejection.  [order] lists the indices
    of the input promises in the order in which they settle. *)
Fixpoint all_loop {A} (outcomes : list (Settled A)) (slots : list (option A))
    (order : list nat) : Settled (list A) :=
  match order with
  | [] => Pending
  | i :: rest =>
      match outcomes !! i with
      | Some (Fulfilled v) =>
          let slots' := <[i := Some v]> slots in
          match collect slots' with
          | Some vs => Fulfilled vs
          | None => all_loop outcomes slots' rest
          end
      | Some (Rejected e) => Rejected e
      | Some (Uncaught e) => Uncaught e
      | Some Pending | None => all_loop outcomes slots rest
      end
  end.

Definition all {A} (outcomes : list (Settled A)) (order : list nat) : Settled (list A) :=
  match outcomes with
  | [] => Fulfilled []
  | _ => all_loop outcomes (replicate (length outcomes) None) order
  end.

(** Every slot is either filled with the value of its promise, or empty
    with its promise still to settle. *)
Definition filling {A} (vs : list A) (slots : list (option A)) (order : list nat) : Prop :=
  length slots = length vs
  /\ forall i v, vs !! i = Some v ->
       slots !! i = Some (Some v) \/ (slots !! i = Some None /\ i ∈ order).

End Promise.

(** ** getSSHConfig *)

Module Config.
Import Js Promise.

Record SSHConfig := mkConfig {
  host : string;
  port : JsNumber;
  username : string;
  password : option string;
  privateKey : option string;
  passphrase : option string
}.

(** The assignments [config.password = ...], [config.privateKey = ...] and
    [config.passphrase = ...]. *)
Definition set_password (config : SSHConfig) (v : string) : SSHConfig :=
  mkConfig (host config) (port config) (username config)
    (Some v) (privateKey config) (passphrase config).

Definition set_privateKey (config : SSHConfig) (v : string) : SSHConfig :=
  mkConfig (host config) (port config) (username config)
    (password config) (Some v) (passphrase config).

Definition set_passphrase (config : SSHConfig) (v : string) : SSHConfig :=
  mkConfig (host config) (port config) (username config)
    (password config) (privateKey config) (Some v).

Section Resolver.

(** [process.env] and [fs.readFileSync(path, 'utf8')]. *)
Variable env : gmap string string.
Variable readFileSync : string -> Thrown string.

(** [process.env.K || d]. *)
Definition env_or (k d : string) : string :=
  match env !! k with
  | Some v => if str_falsy v then d else v
  | None => d
  end.

Definition getSSHConfig : Thrown SSHConfig :=
  let ohost := env !! "SSH_HOST" in
  let oport := parseInt (env_or "SSH_PORT" "22") in
  let ousername := env !! "SSH_USERNAME" in
  let opassword := env !! "SSH_PASSWORD" in
  let privateKeyPath := env !! "SSH_PRIVATE_KEY_PATH" in
  let opassphrase := env !! "SSH_PASSPHRASE" in
  if opt_falsy ohost || opt_falsy ousername then
    Throw (Error "SSH_HOST and SSH_USERNAME environment variables are required")
  else
    let config := mkConfig (default "" ohost) oport (default "" ousername) None None None in
    if negb (opt_falsy opassword) then
      Return (set_password config (default "" opassword))
    else if negb (opt_falsy privateKeyPath) then
      match readFileSync (default "" privateKeyPath) with
      | Return data =>
          let config := set_privateKey config data in
          Return (if negb (opt_falsy opassphrase)
                  then set_passphrase config (default "" opassphrase)
                  else config)
      | Throw error =>
          Throw (Error ("Failed to read private key from " +:+ default "" privateKeyPath
                        +:+ ": " +:+ error_toString error))
      end
    else
      Throw (Error "Either SSH_PASSWORD or SSH_PRIVATE_KEY_PATH must be provided").

End Resolver.

End Config.

(** ** The connection cache and getSSHConnection *)

Module Session.
Import Js Promise Config.

(** A [Client] object, by identity. *)
Definition Client := nat.

Definition connectionKey (config : SSHConfig) : string :=
  host config +:+ ":" +:+ number_toString (port config) +:+ ":" +:+ username config.

(** The state shared by the flows that are inside [getSSHConnection]:
    the [connections] map, the calls of [createSSHConnection] made so far
    (each builds a new [Client] and calls [connect]), the flows parked at
    the [await], and what finished flows returned. *)
Record State := mkState {
  connections : gmap string Client;
  opened : list (Client * SSHConfig);
  waiting : gmap nat (string * Client);
  returned : gmap nat (Thrown Client)
}.

Definition init : State := mkState ∅ [] ∅ ∅.

(** What the event loop can run next: flow [f] calls [getSSHConnection]
    (with the environment of that moment) and runs up to the [await]; the
    client of flow [f] emits [ready]; the client of flow [f] emits [error]. *)
Inductive Event :=
| Call (f : nat) (env : gmap string string)
| Ready (f : nat)
| Failed (f : nat) (e : JsError).

Section Steps.

Variable readFileSync : string -> Thrown string.

Definition step (s : State) (ev : Event) : State :=
  match ev with
  | Call f env =>
      match getSSHConfig env readFileSync with
      | Throw e =>
          mkState (connections s) (opened s) (waiting s) (<[f := Throw e]> (returned s))
      | Return config =>
          let connectionKey := connectionKey config in
          match connections s !! connectionKey with
          | Some conn =>
              mkState (connections s) (opened s) (waiting s)
                (<[f := Return conn]> (returned s))
          | None =>
              let conn := length (opened s) in
              mkState (connections s) ((opened s ++ [(conn, config)])%list)
                (<[f := (connectionKey, conn)]> (waiting s)) (returned s)
          end
      end
  | Ready f =>
      match waiting s !! f with
      | Some (connectionKey, conn) =>
          mkState (<[connectionKey := conn]> (connections s)) (opened s)
            (delete f (waiting s)) (<[f := Return conn]> (returned s))
      | None => s
      end
  | Failed f e =>
      match waiting s !! f with
      | Some _ =>
          mkState (connections s) (opened s) (delete f (waiting s))
            (<[f := Throw e]> (returned s))
      | None => s
      end
  end.

Definition run (trace : list Event) (s : State) : State := fold_left step trace s.

End Steps.

(** The number of [createSSHConnection] calls made for a key. *)
Definition opens_for (key : string) (s : State) : nat :=
  length (filter (fun oc => connectionKey (snd oc) = key) (opened s)).

(** Calls that do not overlap: each one is followed at once by the [ready]
    of its client (ignored when the call was served from the cache). *)
Definition one_at_a_time (calls : list (nat * gmap string string)) : list Event :=
  flat_map (fun c => [Call (fst c) (snd c); Ready (fst c)]) calls.

(** What holds between calls that do not overlap: a key has been opened at
    most once, and if it has, its session is in the cache. *)
Definition settled_cache (s : State) : Prop :=
  forall key, opens_for key s = 0
              \/ (opens_for key s = 1 /\ is_Some (connections s !! key)).

End Session.

(** ** executeRemoteCommand: one channel per command *)

Module Exec.
Import Js Promise.

Record ExecResult := mkResult { stdout : string; stderr : string; exitCode : Z }.

(** What a channel can emit.  The code listens to [data] on the stream and
    on its [stderr], and to [close]; [end] and [exit] have no listener. *)
Inductive StreamEvent :=
| Data (chunk : string)
| StderrData (chunk : string)
| End_
| StderrEnd
| Exit_ (code : Z)
| Close (code : Z).

(** The two accumulators of the callback and the promise it settles. *)
Record Channel := mkChannel {
  acc_stdout : string;
  acc_stderr : string;
  resolved : option ExecResult
}.

Definition opened_channel : Channel := mkChannel "" "" None.

(** One listener call.  A promise keeps its first resolution. *)
Definition on_event (ch : Channel) (ev : StreamEvent) : Channel :=
  match ev with
  | Close code =>
      match resolved ch with
      | None =>
          mkChannel (acc_stdout ch) (acc_stderr ch)
            (Some (mkResult (acc_stdout ch) (acc_stderr ch) code))
      | Some _ => ch
      end
  | Data data => mkChannel (acc_stdout ch +:+ data) (acc_stderr ch) (resolved ch)
  | StderrData data => mkChannel (acc_stdout ch) (acc_stderr ch +:+ data) (resolved ch)
  | End_ | StderrEnd | Exit_ _ => ch
  end.

Definition deliver (events : list StreamEvent) : Channel :=
  fold_left on_event events opened_channel.

(** [conn.exec(command, callback)]: the callback gets an error, or a stream
    that then emits its events. *)
Inductive ExecOpen :=
| OpenFailed (err : JsError)
| Opened (events : list StreamEvent).

(** [conn] is how [await getSSHConnection()] settles. *)
Definition executeRemoteCommand {Client} (conn : Settled Client)
    (exec : Client -> string -> ExecOpen) (command : string) : Settled ExecResult :=
  match conn with
  | Rejected e => Rejected e
  | Pending => Pending
  | Uncaught e => Uncaught e
  | Fulfilled c =>
      match exec c command with
      | OpenFailed err => Rejected err
      | Opened events =>
          match resolved (deliver events) with
          | Some result => Fulfilled result
          | None => Pending
          end
      end
  end.

Definition is_close (ev : StreamEvent) : bool :=
  match ev with
  | Close _ => true
  | _ => false
  end.

(** The text a list of events carries on standard output and on standard
    error. *)
Fixpoint stdout_of (events : list StreamEvent) : string :=
  match events with
  | [] => ""
  | Data d :: rest => d +:+ stdout_of rest
  | _ :: rest => stdout_of rest
  end.

Fixpoint stderr_of (events : list StreamEvent) : string :=
  match events with
  | [] => ""
  | StderrData d :: rest => d +:+ stderr_of rest
  | _ :: rest => stderr_of rest
  end.

End Exec.

(** ** uploadFile and downloadFile: one SFTP transfer per call *)

Module Transfer.
Import Js Promise.

(** What the two streams of a transfer can emit: the source stream (the
    local file for an upload, the remote file for a download) and the
    destination stream. *)
Inductive TransferEvent :=
| ReadError (err : JsError)
| ReadEnd
| WriteError (err : JsError)
| WriteClose.

(** The listeners are [writeStream.on('close')], which resolves, and
    [writeStream.on('error')], which rejects.  Nothing listens to [error]
    on [readStream], and [pipe] forwards no error of its source: when the
    source is the stream of a local file, its [error] is thrown out of the
    event loop. *)
Fixpoint pipe (events : list TransferEvent) : Settled unit :=
  match events with
  | [] => Pending
  | WriteClose :: _ => Fulfilled tt
  | WriteError err :: _ => Rejected err
  | ReadError err :: _ => Uncaught err
  | ReadEnd :: rest => pipe rest
  end.

(** [conn.sftp(callback)]: the callback gets an error, or the SFTP session
    on which the two streams are then created and piped. *)
Inductive SftpOpen :=
| SftpFailed (err : JsError)
| SftpOpened (events : list TransferEvent).

Definition transfer {Client} (conn : Settled Client)
    (sftp : Client -> string -> string -> SftpOpen) (source destination : string)
    : Settled unit :=
  match conn with
  | Rejected e => Rejected e
  | Pending => Pending
  | Uncaught e => Uncaught e
  | Fulfilled c =>
      match sftp c source destination with
      | SftpFailed err => Rejected err
      | SftpOpened events => pipe events
      end
  end.

(** uploadFile: the source is the stream of the local file, the
    destination the SFTP write stream. *)
Definition uploadFile {Client} (conn : Settled Client)
    (sftp : Client -> string -> string -> SftpOpen) (localPath remotePath : string)
    : Settled unit :=
  transfer conn sftp localPath remotePath.

(** downloadFile: the source is the SFTP read stream.  Its [error] has no
    listener either, but the stream emits it while the library handles a
    packet of the connection: the exception is caught there and emitted as
    [error] on the [Client], where the listener that createSSHConnection
    registered takes it.  The process goes on and the promise of the
    transfer is left as it was, waiting for the write stream. *)
Fixpoint pipe_from_remote (events : list TransferEvent) : Settled unit :=
  match events with
  | [] => Pending
  | WriteClose :: _ => Fulfilled tt
  | WriteError err :: _ => Rejected err
  | ReadError _ :: rest => pipe_from_remote rest
  | ReadEnd :: rest => pipe_from_remote rest
  end.

Definition downloadFile {Client} (conn : Settled Client)
    (sftp : Client -> string -> string -> SftpOpen) (remotePath localPath : string)
    : Settled unit :=
  match conn with
  | Rejected e => Rejected e
  | Pending => Pending
  | Uncaught e => Uncaught e
  | Fulfilled c =>
      match sftp c remotePath localPath with
      | SftpFailed err => Rejected err
      | SftpOpened events => pipe_from_remote events
      end
  end.

End Transfer.

(** ** The POSIX shell's quoting rules, as far as command substitution goes *)

Module Shell.
Import Js.

Inductive Quoting := Unquoted | InSingle | InDouble.

(** Does the shell, reading [s] in quoting state [q], meet a command
    substitution it will run?  Inside single quotes nothing is special;
    outside them and inside double quotes a backslash protects the next
    character, and an unprotected backquote or dollar-parenthesis starts a
    command substitution. *)
Fixpoint runs_substitution (q : Quoting) (s : string) : bool :=
  match s with
  | "" => false
  | String c rest =>
      match q with
      | InSingle =>
          if Ascii.eqb c "'" then runs_substitution Unquoted rest
          else runs_substitution InSingle rest
      | _ =>
          if Ascii.eqb c backslash then
            match rest with
            | String _ rest' => runs_substitution q rest'
            | "" => false
            end
          else if Ascii.eqb c "`" then true
          else if Ascii.eqb c "$" then
            match rest with
            | String "(" _ => true
            | _ => runs_substitution q rest
            end
          else if Ascii.eqb c dquote then
            runs_substitution (match q with InDouble => Unquoted | _ => InDouble end) rest
          else if Ascii.eqb c "'" then
            runs_substitution (match q with Unquoted => InSingle | _ => q end) rest
          else runs_substitution q rest
      end
  end.

End Shell.

(** ** The CallToolRequest handler *)

Module Tool.
Import Js Promise Exec.

Record Request := mkRequest {
  name : string;
  arguments : option (gmap string JsValue)
}.

(** [{ content: [{ type: "text", text }], isError }]; the flag is absent
    (false) on the normal path. *)
Record Response := mkResponse { text : string; isError : bool }.

(** [request.params.arguments?.k] *)
Definition arg (request : Request) (k : string) : JsValue :=
  match arguments request with
  | Some args => default JUndefined (args !! k)
  | None => JUndefined
  end.

(** The calls a handler makes into the remote-operation functions; each of
    them starts with [await getSSHConnection()]. *)
Inductive Invocation :=
| ExecuteRemoteCommand (command : string)
| GetRemoteFileContent (filePath : string)
| UploadFile (localPath remotePath : string)
| DownloadFile (remotePath localPath : string).

(** Asynchronous code of the handler: it settles (or not) and leaves the
    calls it made in the log. *)
Definition Async (A : Type) : Type := list Invocation -> Settled A * list Invocation.

Definition ret {A} (a : A) : Async A := fun log => (Fulfilled a, log).

Definition throw {A} (e : JsError) : Async A := fun log => (Rejected e, log).

Definition bind {A B} (m : Async A) (k : A -> Async B) : Async B :=
  fun log =>
    match m log with
    | (Fulfilled a, log') => k a log'
    | (Rejected e, log') => (Rejected e, log')
    | (Pending, log') => (Pending, log')
    | (Uncaught e, log') => (Uncaught e, log')
    end.

Notation "'await!' x ':=' m 'in' k" := (bind m (fun x => k))
  (at level 10, x binder, k at level 200).

(** [try { m } catch (error) { handler }] *)
Definition try_catch {A} (m : Async A) (handler : JsError -> Async A) : Async A :=
  fun log =>
    match m log with
    | (Rejected e, log') => handler e log'
    | settled => settled
    end.

Definition write_file_command (filePath content : string) : string :=
  "echo " +:+ JSON_stringify content +:+ " > " +:+ JSON_stringify filePath.

Definition list_directory_command (dirPath : string) (detailed : bool) : string :=
  if detailed then "ls -la " +:+ JSON_stringify dirPath
  else "ls " +:+ JSON_stringify dirPath.

(** The inner [switch (monitorType)]. *)
Definition monitor_commands (monitorType : string) : list string :=
  if String.eqb monitorType "cpu" then ["top -bn1 | head -20"]
  else if String.eqb monitorType "memory" then ["free -h"; "cat /proc/meminfo | head -10"]
  else if String.eqb monitorType "disk" then ["df -h"; "lsblk"]
  else if String.eqb monitorType "network" then ["netstat -tuln"; "ss -tuln"]
  else ["uptime"; "free -h"; "df -h"; "top -bn1 | head -10"; "netstat -tuln | head -10"].

(** [results.map((result, index) => ...).join('\n')] *)
Definition monitor_output (commands : list string) (results : list ExecResult) : string :=
  join nl
    (imap (fun index result =>
             "=== " +:+ default "undefined" (commands !! index) +:+ " ===" +:+ nl
             +:+ stdout result +:+ nl)
          results).

Section Handler.

(** How the remote-operation functions settle when called, and the order in
    which the promises handed to [Promise.all] settle. *)
Variable remote_exec : string -> Settled ExecResult.
Variable remote_read : string -> Settled string.
Variable remote_upload : string -> string -> Settled unit.
Variable remote_download : string -> string -> Settled unit.
Variable completion : list nat.

Definition executeRemoteCommand (command : string) : Async ExecResult :=
  fun log => (remote_exec command, (log ++ [ExecuteRemoteCommand command])%list).

Definition getRemoteFileContent (filePath : string) : Async string :=
  fun log => (remote_read filePath, (log ++ [GetRemoteFileContent filePath])%list).

Definition uploadFile (localPath remotePath : string) : Async unit :=
  fun log => (remote_upload localPath remotePath, (log ++ [UploadFile localPath remotePath])%list).

Definition downloadFile (remotePath localPath : string) : Async unit :=
  fun log => (remote_download remotePath localPath, (log ++ [DownloadFile remotePath localPath])%list).

(** [await Promise.all(commands.map(cmd => executeRemoteCommand(cmd)))]:
    [map] makes every call, in list order, before anything is awaited. *)
Definition executeAll (commands : list string) : Async (list ExecResult) :=
  fun log =>
    (Promise.all (map remote_exec commands) completion,
     (log ++ map ExecuteRemoteCommand commands)%list).

(** The body of the [try] block. *)
Definition dispatch (request : Request) : Async Response :=
  let tool := name request in
  if String.eqb tool "execute_command" then
    let command := toString (arg request "command") in
    if str_falsy command then throw (Error "Command is required")
    else
      await! result := executeRemoteCommand command in
      ret (mkResponse
             ("命令: " +:+ command +:+ nl +:+ "退出码: " +:+ Z_to_string (exitCode result)
              +:+ nl +:+ nl +:+ "标准输出:" +:+ nl +:+ stdout result
              +:+ nl +:+ nl +:+ "标准错误:" +:+ nl +:+ stderr result)
             false)
  else if String.eqb tool "read_file" then
    let filePath := toString (arg request "path") in
    if str_falsy filePath then throw (Error "File path is required")
    else
      await! content := getRemoteFileContent filePath in
      ret (mkResponse ("文件: " +:+ filePath +:+ nl +:+ nl +:+ "内容:" +:+ nl +:+ content) false)
  else if String.eqb tool "write_file" then
    let filePath := toString (arg request "path") in
    let content := toString (arg request "content") in
    if str_falsy filePath || str_falsy content
    then throw (Error "File path and content are required")
    else
      let command := write_file_command filePath content in
      await! result := executeRemoteCommand command in
      if (exitCode result =? 0)%Z
      then ret (mkResponse ("文件 " +:+ filePath +:+ " 写入成功") false)
      else throw (Error ("写入文件失败: " +:+ stderr result))
  else if String.eqb tool "upload_file" then
    let localPath := toString (arg request "local_path") in
    let remotePath := toString (arg request "remote_path") in
    if str_falsy localPath || str_falsy remotePath
    then throw (Error "Local path and remote path are required")
    else
      await! _ := uploadFile localPath remotePath in
      ret (mkResponse ("文件从 " +:+ localPath +:+ " 上传到 " +:+ remotePath +:+ " 成功") false)
  else if String.eqb tool "download_file" then
    let remotePath := toString (arg request "remote_path") in
    let localPath := toString (arg request "local_path") in
    if str_falsy remotePath || str_falsy localPath
    then throw (Error "Remote path and local path are required")
    else
      await! _ := downloadFile remotePath localPath in
      ret (mkResponse ("文件从 " +:+ remotePath +:+ " 下载到 " +:+ localPath +:+ " 成功") false)
  else if String.eqb tool "list_directory" then
    let dirPath := toString (or_else (arg request "path") (JStr ".")) in
    let detailed := truthy (arg request "detailed") in
    let command := list_directory_command dirPath detailed in
    await! result := executeRemoteCommand command in
    ret (mkResponse ("目录: " +:+ dirPath +:+ nl +:+ nl +:+ stdout result) false)
  else if String.eqb tool "system_monitor" then
    let monitorType := toString (or_else (arg request "type") (JStr "all")) in
    let commands := monitor_commands monitorType in
    await! results := executeAll commands in
    let output := monitor_output commands results in
    ret (mkResponse ("系统监控 (" +:+ monitorType +:+ "):" +:+ nl +:+ nl +:+ output) false)
  else throw (Error ("Unknown tool: " +:+ tool)).

(** The handler registered for [CallToolRequestSchema]. *)
Definition callTool (request : Request) : Async Response :=
  try_catch (dispatch request)
    (fun error => ret (mkResponse ("错误: " +:+ error_toString error) true)).

End Handler.

End Tool.

(** ** The catalogues: ListTools and ListResources *)

Module Catalogue.
Import Js.

(** One property of a tool's input schema. *)
Record Property := mkProperty {
  prop_name : string;
  prop_type : string;
  prop_description : string;
  prop_enum : list string;
  prop_default : option JsValue
}.

Record ToolDecl := mkTool {
  tool_name : string;
  tool_description : string;
  properties : list Property;
  required : list string
}.

(** The answer of the ListTools handler. *)
Definition listTools : list ToolDecl :=
  [ mkTool "execute_command" "在远程Linux服务器上执行命令"
      [mkProperty "command" "string" "要执行的命令" [] None]
      ["command"];
    mkTool "read_file" "读取远程服务器上的文件内容"
      [mkProperty "path" "string" "文件路径" [] None]
      ["path"];
    mkTool "write_file" "在远程服务器上写入文件"
      [mkProperty "path" "string" "文件路径" [] None;
       mkProperty "content" "string" "文件内容" [] None]
      ["path"; "content"];
    mkTool "upload_file" "上传本地文件到远程服务器"
      [mkProperty "local_path" "string" "本地文件路径" [] None;
       mkProperty "remote_path" "string" "远程文件路径" [] None]
      ["local_path"; "remote_path"];
    mkTool "download_file" "从远程服务器下载文件到本地"
      [mkProperty "remote_path" "string" "远程文件路径" [] None;
       mkProperty "local_path" "string" "本地文件路径" [] None]
      ["remote_path"; "local_path"];
    mkTool "list_directory" "列出远程目录内容"
      [mkProperty "path" "string" "目录路径" [] (Some (JStr "."));
       mkProperty "detailed" "boolean" "是否显示详细信息" [] (Some (JBool false))]
      [];
    mkTool "system_monitor" "获取系统监控信息"
      [mkProperty "type" "string" "监控类型"
         ["cpu"; "memory"; "disk"; "network"; "all"] (Some (JStr "all"))]
      [] ].

Record ResourceDecl := mkResource {
  res_uri : string;
  res_mimeType : string;
  res_name : string;
  res_description : string
}.

(** The answer of the ListResources handler. *)
Definition listResources : list ResourceDecl :=
  [ mkResource "linux://system/info" "application/json" "系统信息" "远程Linux服务器的系统信息";
    mkResource "linux://system/processes" "application/json" "进程列表" "当前运行的进程列表";
    mkResource "linux://system/disk" "application/json" "磁盘使用情况" "磁盘空间使用情况";
    mkResource "linux://system/memory" "application/json" "内存使用情况" "内存使用情况" ].

End Catalogue.

(** ** The ReadResource handler *)

Module Resource.
Import Js Promise Exec Tool.

(** The two error codes of the SDK that the handler uses. *)
Inductive ErrorCode := InvalidRequest | InternalError.

Record Contents := mkContents {
  uri : string;
  mimeType : string;
  text : string
}.

(** [JSON.stringify(result, null, 2)] for an object whose properties all
    hold strings: one property per line, indented by two spaces. *)
Definition stringify_object (fields : list (string * string)) : string :=
  match fields with
  | [] => "{}"
  | _ =>
      "{" +:+ nl
      +:+ join ("," +:+ nl)
            (map (fun kv => "  " +:+ JSON_stringify (fst kv) +:+ ": "
                            +:+ JSON_stringify (snd kv)) fields)
      +:+ nl +:+ "}"
  end.

Section Handler.

(** The SDK's [McpError] constructor, the [pathname] that [new URL(uri)]
    computes (the constructor throws on text that is no URL), how
    [executeRemoteCommand] settles, and what [new Date().toISOString()]
    gives when the command has completed. *)
Variable McpError : ErrorCode -> string -> JsError.
Variable url_pathname : string -> Thrown string.
Variable remote_exec : string -> Settled ExecResult.
Variable now : string.

(** The [switch (resourcePath)], up to the value of [result]. *)
Definition fetch (resourcePath : string) : Async (list (string * string)) :=
  if String.eqb resourcePath "/system/info" then
    await! sysInfo := executeRemoteCommand remote_exec "uname -a && cat /etc/os-release" in
    ret [("system_info", stdout sysInfo); ("timestamp", now)]
  else if String.eqb resourcePath "/system/processes" then
    await! processes := executeRemoteCommand remote_exec "ps aux --sort=-%cpu | head -20" in
    ret [("processes", stdout processes); ("timestamp", now)]
  else if String.eqb resourcePath "/system/disk" then
    await! diskInfo := executeRemoteCommand remote_exec "df -h" in
    ret [("disk_usage", stdout diskInfo); ("timestamp", now)]
  else if String.eqb resourcePath "/system/memory" then
    await! memInfo :=
      executeRemoteCommand remote_exec "free -h && cat /proc/meminfo | head -10" in
    ret [("memory_info", stdout memInfo); ("timestamp", now)]
  else throw (McpError InvalidRequest ("Unknown resource: " +:+ resourcePath)).

(** The handler registered for [ReadResourceRequestSchema]; the URL is
    parsed before the [try] block is entered. *)
Definition readResource (request_uri : string) : Async (list Contents) :=
  match url_pathname request_uri with
  | Throw e => throw e
  | Return resourcePath =>
      try_catch
        (await! result := fetch resourcePath in
         ret [mkContents request_uri "application/json" (stringify_object result)])
        (fun error =>
           throw (McpError InternalError
                    ("Failed to fetch resource: " +:+ error_toString error)))
  end.

End Handler.

End Resource.

(** ** getRemoteFileContent: one SFTP read per call *)

Module Sftp.
Import Js Promise.

(** [conn.sftp(callback)] hands an error or an SFTP session; on a session,
    [sftp.readFile(filePath, 'utf8', callback)] hands an error or the data. *)
Inductive ReadOutcome :=
| SessionFailed (err : JsError)
| ReadFailed (err : JsError)
| ReadData (data : string)
| NoAnswer.

Definition getRemoteFileContent {Client} (conn : Settled Client)
    (sftp : Client -> string -> ReadOutcome) (filePath : string) : Settled string :=
  match conn with
  | Rejected e => Rejected e
  | Pending => Pending
  | Uncaught e => Uncaught e
  | Fulfilled c =>
      match sftp c filePath with
      | SessionFailed err => Rejected err
      | ReadFailed err => Rejected err
      | ReadData data => Fulfilled data
      | NoAnswer => Pending
      end
  end.

End Sftp.

(** ** Vocabulary of the statements and sample inputs *)

Module Samples.
Import Js Promise.






(** A configuration value counts as absent when it is unset or empty: the
    code tests it with [!value]. *)
Definition absent (env : gmap string string) (k : string) : Prop :=
  opt_falsy (env !! k) = true.

(** A local file system without any readable file. *)
Definition no_files (path : string) : Thrown string :=
  Throw (mkError "Error" ("ENOENT: no such file or directory, open '" +:+ path +:+ "'")).

Definition env_password : gmap string string :=
  {[ "SSH_HOST" := "10.0.0.5"; "SSH_USERNAME" := "root"; "SSH_PASSWORD" := "secret" ]}.

Definition cfg_password : Config.SSHConfig :=
  Config.mkConfig "10.0.0.5" (JInt 22) "root" (Some "secret") None None.


(** The text of a system_monitor response: one labelled block per
    command, in the order of the command list. *)
Definition labelled (cmd : string) (result : Exec.ExecResult) : string :=
  "=== " +:+ cmd +:+ " ===" +:+ nl +:+ Exec.stdout result +:+ nl.

Definition monitor_text (monitorType : string) (commands : list string)
    (results : list Exec.ExecResult) : string :=
  "系统监控 (" +:+ monitorType +:+ "):" +:+ nl +:+ nl
  +:+ join nl (zip_with labelled commands results).

Definition all_commands : list string :=
  ["uptime"; "free -h"; "df -h"; "top -bn1 | head -10"; "netstat -tuln | head -10"].

Definition monitor_kinds : list string := ["cpu"; "memory"; "disk"; "network"; "all"].

(** A remote end that answers every command at once, and promises that
    never settle. *)
Definition sample_result (command : string) : Exec.ExecResult :=
  Exec.mkResult ("<" +:+ command +:+ ">") "" 0.

Definition echo_exec (command : string) : Settled Exec.ExecResult :=
  Fulfilled (sample_result command).

Definition never {A} : Settled A := Pending.

Definition monitor_request (type : string) : Tool.Request :=
  Tool.mkRequest "system_monitor" (Some {[ "type" := JStr type ]}).

(** An upload whose local file does not exist: opening it fails and the
    read stream emits the error. *)
Definition enoent : JsError :=
  mkError "Error" "ENOENT: no such file or directory, open '/home/me/missing.txt'".

Definition missing_source (c : nat) (source destination : string) : Transfer.SftpOpen :=
  Transfer.SftpOpened [Transfer.ReadError enoent].

Definition upload_request : Tool.Request :=
  Tool.mkRequest "upload_file"
    (Some {[ "local_path" := JStr "/home/me/missing.txt";
             "remote_path" := JStr "/tmp/copy.txt" ]}).

Definition quoted_content : string := "a" +:+ String dquote "b$(whoami)".

Definition write_request : Tool.Request :=
  Tool.mkRequest "write_file"
    (Some {[ "path" := JStr "/tmp/x"; "content" := JStr quoted_content ]}).

End Samples.

(** ** A fragment of the URL parser behind [new URL(text)] *)

Module Url.

Definition in_range (lo hi : nat) (c : ascii) : bool :=
  let n := nat_of_ascii c in ((lo <=? n) && (n <=? hi))%nat.

Definition is_lower (c : ascii) : bool := in_range 97 122 c.
Definition is_upper (c : ascii) : bool := in_range 65 90 c.
Definition is_digit (c : ascii) : bool := in_range 48 57 c.

Definition is_scheme_char (c : ascii) : bool :=
  is_lower c || is_digit c || Ascii.eqb c "+" || Ascii.eqb c "-" || Ascii.eqb c ".".

Definition is_host_char (c : ascii) : bool :=
  is_lower c || is_digit c || Ascii.eqb c "-" || Ascii.eqb c ".".

Definition is_path_char (c : ascii) : bool :=
  is_lower c || is_upper c || is_digit c || Ascii.eqb c "-" || Ascii.eqb c "_"
  || Ascii.eqb c "/".

(** The schemes the parser treats specially (default ports, forced slash,
    backslash as slash); they are outside the fragment. *)
Definition special_schemes : list string := ["http"; "https"; "ws"; "wss"; "ftp"; "file"].

(** Splits at the first colon, if only scheme characters stand before it. *)
Fixpoint scheme_end (s : string) : option (string * string) :=
  match s with
  | "" => None
  | String c rest =>
      if Ascii.eqb c ":" then Some ("", rest)
      else if is_scheme_char c then
        match scheme_end rest with
        | Some (scheme, after) => Some (String c scheme, after)
        | None => None
        end
      else None
  end.

(** Splits at the first slash, if only host characters stand before it. *)
Fixpoint host_end (s : string) : option (string * string) :=
  match s with
  | "" => Some ("", "")
  | String c rest =>
      if Ascii.eqb c "/" then Some ("", s)
      else if is_host_char c then
        match host_end rest with
        | Some (host, path) => Some (String c host, path)
        | None => None
        end
      else None
  end.

Fixpoint all_chars (p : ascii -> bool) (s : string) : bool :=
  match s with
  | "" => true
  | String c rest => p c && all_chars p rest
  end.

(** The [pathname] of [scheme://host/path]: on this fragment the parser
    takes the host from between the double slash and the next slash and
    keeps the rest as the path, unchanged.  [None]: the text is outside the
    fragment. *)
Definition pathname (text : string) : option string :=
  match text with
  | String c _ =>
      if is_lower c then
        match scheme_end text with
        | Some (scheme, String "/" (String "/" after)) =>
            if bool_decide (scheme ∈ special_schemes) then None
            else
              match host_end after with
              | Some (_, path) => if all_chars is_path_char path then Some path else None
              | None => None
              end
        | _ => None
        end
      else None
  | "" => None
  end.

End Url.

(** ** More vocabulary for the statements *)

Module Scenarios.
Import Js Promise.

(** Every client the cache or a parked flow holds sits in the log of opens
    at its own number, with a configuration of that key. *)
Definition clients_opened (s : Session.State) : Prop :=
  (forall key c, Session.connections s !! key = Some c ->
     exists cfg, Session.opened s !! c = Some (c, cfg) /\ Session.connectionKey cfg = key)
  /\ (forall f key c, Session.waiting s !! f = Some (key, c) ->
        exists cfg, Session.opened s !! c = Some (c, cfg)
                    /\ Session.connectionKey cfg = key).

(** Each filled slot holds the value its promise was fulfilled with. *)
Definition slots_sound {A} (outcomes : list (Settled A)) (slots : list (option A)) : Prop :=
  length slots = length outcomes
  /\ forall i v, slots !! i = Some (Some v) -> outcomes !! i = Some (Fulfilled v).

(** Text without a dollar sign and without a backquote. *)
Definition shell_inert (s : string) : bool :=
  Url.all_chars (fun c => negb (Ascii.eqb c "$" || Ascii.eqb c "`")) s.


(** The body of a system_monitor response: for each command its label on
    a line, its standard output and a line feed, with an empty line between
    two commands. *)
Fixpoint blocks (commands : list string) (results : list Exec.ExecResult) : string :=
  match commands, results with
  | command :: commands', result :: results' =>
      "=== " +:+ command +:+ " ===
" +:+ Exec.stdout result +:+ "
" +:+ match commands', results' with
      | _ :: _, _ :: _ => "
" +:+ blocks commands' results'
      | _, _ => ""
      end
  | _, _ => ""
  end.


(** Events of a transfer that decide nothing. *)
Definition undecided (events : list Transfer.TransferEvent) : bool :=
  forallb (fun ev => match ev with Transfer.ReadEnd => true | _ => false end) events.

(** The resources the ReadResource handler serves: path, command, and the
    property of the payload that carries the output. *)
Definition served : list (string * string * string) :=
  [ ("/system/info", "uname -a && cat /etc/os-release", "system_info");
    ("/system/processes", "ps aux --sort=-%cpu | head -20", "processes");
    ("/system/disk", "df -h", "disk_usage");
    ("/system/memory", "free -h && cat /proc/meminfo | head -10", "memory_info") ].

Definition served_paths : list string := map (fun r => fst (fst r)) served.

(** Two environments that differ in the password only. *)
Definition env_other_password : gmap string string :=
  <["SSH_PASSWORD" := "changed"]> Samples.env_password.

(** A stand-in for the SDK's error class and for its URL parser outside the
    fragment. *)
Definition sample_McpError (code : Resource.ErrorCode) (message : string) : JsError :=
  mkError "McpError"
    (match code with
     | Resource.InvalidRequest => "MCP error -32600: "
     | Resource.InternalError => "MCP error -32603: "
     end +:+ message).

Definition sample_pathname (text : string) : Thrown string :=
  match Url.pathname text with
  | Some path => Return path
  | None => Throw (mkError "TypeError" "Invalid URL")
  end.

(** A state in which the session of [env_password] is cached. *)
Definition cached_state : Session.State :=
  Session.run Samples.no_files
    [Session.Call 1 Samples.env_password; Session.Ready 1] Session.init.

Definition cfg_other_password : Config.SSHConfig :=
  Config.mkConfig "10.0.0.5" (JInt 22) "root" (Some "changed") None None.

(** A remote end on which every command fails with exit code 1. *)
Definition failing_exec (command : string) : Settled Exec.ExecResult :=
  Fulfilled (Exec.mkResult "" "Permission denied" 1).












End Scenarios.

(** * Properties *)

Import Js Promise Samples.

Ltac in_list := repeat first [apply list_elem_of_here | apply list_elem_of_further].

(** ** Sanity checks of the primitives *)

Example parseInt_22 : parseInt "22" = JInt 22.
Proof. reflexivity. Qed.

Example parseInt_prefix : parseInt "  8080abc" = JInt 8080.
Proof. reflexivity. Qed.

Example parseInt_hex : parseInt "0x1F" = JInt 31.
Proof. reflexivity. Qed.

Example parseInt_letters : parseInt "abc" = NaN.
Proof. reflexivity. Qed.

Example toString_undefined : toString JUndefined = "undefined".
Proof. reflexivity. Qed.

Example toString_array : toString (JArr [JNum 1; JNull; JStr "x"]) = "1,,x".
Proof. reflexivity. Qed.

Example stringify_newline : JSON_stringify nl = String dquote (String backslash ("n" +:+ String dquote "")).
Proof. reflexivity. Qed.

Example second_call_hits_cache :
  Session.opened
    (Session.run no_files
       [Session.Call 1 env_password; Session.Ready 1; Session.Call 2 env_password]
       Session.init)
  = [(0, cfg_password)].
Proof. vm_compute. reflexivity. Qed.

Example list_directory_default :
  Tool.callTool echo_exec (fun _ => never) (fun _ _ => never) (fun _ _ => never) []
    (Tool.mkRequest "list_directory" None) []
  = (Fulfilled
       (Tool.mkResponse
          ("目录: ." +:+ nl +:+ nl +:+ "<ls " +:+ String dquote ("." +:+ String dquote ">"))
          false),
     [Tool.ExecuteRemoteCommand ("ls " +:+ String dquote ("." +:+ String dquote ""))]).
Proof. vm_compute. reflexivity. Qed.

Example unknown_tool_is_error :
  Tool.callTool echo_exec (fun _ => never) (fun _ _ => never) (fun _ _ => never) []
    (Tool.mkRequest "reboot" None) []
  = (Fulfilled (Tool.mkResponse "错误: Error: Unknown tool: reboot" true), []).
Proof. vm_compute. reflexivity. Qed.

(** ** The credential resolver *)

Section ConfigFacts.
Import Config.




Lemma env_or_set (env : gmap string string) k d v :
  env !! k = Some v -> v <> "" -> env_or env k d = v.
Proof.
  unfold env_or, str_falsy. intros -> Hv.
  destruct (String.eqb_spec v ""); [contradiction | reflexivity].
Qed.

Lemma getSSHConfig_port env fs cfg :
  getSSHConfig env fs = Return cfg -> port cfg = parseInt (env_or env "SSH_PORT" "22").
Proof.
  unfold getSSHConfig.
  destruct (opt_falsy (env !! "SSH_HOST") || opt_falsy (env !! "SSH_USERNAME")); [discriminate|].
  destruct (negb (opt_falsy (env !! "SSH_PASSWORD"))).
  { intros [= <-]. reflexivity. }
  destruct (negb (opt_falsy (env !! "SSH_PRIVATE_KEY_PATH"))); [|discriminate].
  destruct (fs _); [|discriminate].
  destruct (negb (opt_falsy (env !! "SSH_PASSPHRASE"))); intros [= <-]; reflexivity.
Qed.

End ConfigFacts.


(** C9, as stated, fails: with a password supplied the key file is never
    opened, so a key path that cannot be read does not make the resolver
    fail. *)
Lemma password_hides_unreadable_key :
  let env := <["SSH_PRIVATE_KEY_PATH" := "/root/.ssh/missing.pem"]> env_password in
  (exists e, no_files "/root/.ssh/missing.pem" = Throw e)
  /\ Config.getSSHConfig env no_files = Return cfg_password.
Proof.
  split; [eexists; reflexivity | vm_compute; reflexivity].
Qed.

(** The resolver as one decision tree over the tests it makes. *)
Lemma getSSHConfig_cases env fs :
  Config.getSSHConfig env fs =
  if opt_falsy (env !! "SSH_HOST") || opt_falsy (env !! "SSH_USERNAME") then
    Throw (Error "SSH_HOST and SSH_USERNAME environment variables are required")
  else
    let base := Config.mkConfig (default "" (env !! "SSH_HOST"))
                  (parseInt (Config.env_or env "SSH_PORT" "22"))
                  (default "" (env !! "SSH_USERNAME")) in
    if opt_falsy (env !! "SSH_PASSWORD") then
      if opt_falsy (env !! "SSH_PRIVATE_KEY_PATH") then
        Throw (Error "Either SSH_PASSWORD or SSH_PRIVATE_KEY_PATH must be provided")
      else
        match fs (default "" (env !! "SSH_PRIVATE_KEY_PATH")) with
        | Return data =>
            Return (base None (Some data)
                      (if opt_falsy (env !! "SSH_PASSPHRASE") then None
                       else Some (default "" (env !! "SSH_PASSPHRASE"))))
        | Throw error =>
            Throw (Error ("Failed to read private key from "
                          +:+ default "" (env !! "SSH_PRIVATE_KEY_PATH")
                          +:+ ": " +:+ error_toString error))
        end
    else Return (base (Some (default "" (env !! "SSH_PASSWORD"))) None None).
Proof.
  unfold Config.getSSHConfig.
  destruct (opt_falsy (env !! "SSH_HOST") || opt_falsy (env !! "SSH_USERNAME")); [reflexivity|].
  destruct (opt_falsy (env !! "SSH_PASSWORD")); [|reflexivity].
  destruct (opt_falsy (env !! "SSH_PRIVATE_KEY_PATH")); [reflexivity|].
  unfold negb at 1 2.
  destruct (fs _); [|reflexivity].
  destruct (opt_falsy (env !! "SSH_PASSPHRASE")); reflexivity.
Qed.

Lemma opt_truthy_some (o : option string) :
  opt_falsy o = false -> o = Some (default "" o).
Proof. destruct o; [reflexivity | discriminate]. Qed.

(** C9, amended: the resolver fails exactly when the host or the username
    is absent (unset or empty), when neither a password nor a private-key
    path is supplied, or when no password is supplied and the private-key
    file cannot be read; otherwise it returns the supplied host, the parsed
    port, the supplied username, and the password, or else the key material
    with the passphrase if one is supplied. *)
Theorem getSSHConfig_fails_exactly_when env fs :
  let key_path := default "" (env !! "SSH_PRIVATE_KEY_PATH") in
  ((exists e, Config.getSSHConfig env fs = Throw e) <->
     absent env "SSH_HOST" \/ absent env "SSH_USERNAME"
     \/ (absent env "SSH_PASSWORD" /\ absent env "SSH_PRIVATE_KEY_PATH")
     \/ (absent env "SSH_PASSWORD" /\ ~ absent env "SSH_PRIVATE_KEY_PATH"
         /\ exists e, fs key_path = Throw e))
  /\ (forall cfg, Config.getSSHConfig env fs = Return cfg ->
        env !! "SSH_HOST" = Some (Config.host cfg)
        /\ Config.port cfg = parseInt (Config.env_or env "SSH_PORT" "22")
        /\ env !! "SSH_USERNAME" = Some (Config.username cfg)
        /\ if opt_falsy (env !! "SSH_PASSWORD")
           then Config.password cfg = None
                /\ (exists key, fs key_path = Return key /\ Config.privateKey cfg = Some key)
                /\ Config.passphrase cfg
                   = (if opt_falsy (env !! "SSH_PASSPHRASE") then None
                      else env !! "SSH_PASSPHRASE")
           else Config.password cfg = env !! "SSH_PASSWORD"
                /\ Config.privateKey cfg = None /\ Config.passphrase cfg = None).
Proof.
  intros key_path. unfold absent. rewrite getSSHConfig_cases. subst key_path.
  destruct (opt_falsy (env !! "SSH_HOST")) eqn:Hh; cbn [orb].
  { split; [split; [auto | intros _; eexists; reflexivity] | intros cfg; discriminate]. }
  destruct (opt_falsy (env !! "SSH_USERNAME")) eqn:Hu.
  { split; [split; [auto | intros _; eexists; reflexivity] | intros cfg; discriminate]. }
  cbv zeta.
  destruct (opt_falsy (env !! "SSH_PASSWORD")) eqn:Hpw.
  - destruct (opt_falsy (env !! "SSH_PRIVATE_KEY_PATH")) eqn:Hkp.
    { split; [split; [auto | intros _; eexists; reflexivity] | intros cfg; discriminate]. }
    destruct (fs _) as [key|err] eqn:Hfs.
    + split.
      * split; [intros [e He]; discriminate He|].
        intros [H|[H|[[_ H]|(_ & _ & e & He)]]]; discriminate.
      * intros cfg [= <-]. cbn [Config.host Config.port Config.username Config.password
                                 Config.privateKey Config.passphrase].
        rewrite <- !opt_truthy_some by assumption.
        repeat split; eauto.
        destruct (opt_falsy (env !! "SSH_PASSPHRASE")) eqn:Hpp; [reflexivity|].
        symmetry. apply opt_truthy_some, Hpp.
    + split; [|intros cfg; discriminate].
      split; [|intros _; eexists; reflexivity].
      intros _. right. right. right. repeat split; eauto.
  - split.
    + split; [intros [e He]; discriminate He|].
      intros [H|[H|[[H _]|[H _]]]]; discriminate.
    + intros cfg [= <-]. cbn [Config.host Config.port Config.username Config.password
                               Config.privateKey Config.passphrase].
      rewrite <- !opt_truthy_some by assumption. repeat split.
Qed.

(** ** The connection cache *)

Section SessionFacts.
Import Session.

Variable fs : string -> Thrown string.

Lemma run_app tr1 tr2 s : run fs (tr1 ++ tr2) s = run fs tr2 (run fs tr1 s).
Proof. unfold run. apply fold_left_app. Qed.

(** A cached session is never dropped: the map only grows. *)
Lemma step_keeps_cached s ev key :
  is_Some (connections s !! key) -> is_Some (connections (step fs s ev) !! key).
Proof.
  intros Hc. destruct ev as [f env|f|f e]; cbn [step].
  - destruct (Config.getSSHConfig env fs) as [config|e]; [|exact Hc].
    destruct (connections s !! connectionKey config); exact Hc.
  - destruct (waiting s !! f) as [[k0 c0]|]; [|exact Hc].
    cbn [connections]. destruct (decide (k0 = key)) as [->|Hne].
    + rewrite lookup_insert_eq. eauto.
    + rewrite lookup_insert_ne by exact Hne. exact Hc.
  - destruct (waiting s !! f); exact Hc.
Qed.

(** Only a call that misses the cache opens a session. *)
Lemma step_opens_on_miss s ev key :
  is_Some (connections s !! key) -> opens_for key (step fs s ev) = opens_for key s.
Proof.
  intros Hc. destruct ev as [f env|f|f e]; cbn [step].
  - destruct (Config.getSSHConfig env fs) as [config|e]; [|reflexivity].
    destruct (connections s !! connectionKey config) eqn:Hk; [reflexivity|].
    unfold opens_for. cbn [opened]. rewrite filter_app, length_app.
    rewrite filter_cons, filter_nil. cbn [snd].
    destruct (decide (connectionKey config = key)) as [Heq|Hne]; [|cbn; lia].
    rewrite Heq in Hk. rewrite Hk in Hc. destruct Hc as [? [=]].
  - destruct (waiting s !! f) as [[k0 c0]|]; reflexivity.
  - destruct (waiting s !! f); reflexivity.
Qed.

Lemma cached_stops_opens tr s key :
  is_Some (connections s !! key) -> opens_for key (run fs tr s) = opens_for key s.
Proof.
  revert s. induction tr as [|ev tr IH]; intros s Hc; [reflexivity|].
  change (run fs (ev :: tr) s) with (run fs tr (step fs s ev)).
  rewrite IH by (apply step_keeps_cached, Hc).
  apply step_opens_on_miss, Hc.
Qed.

Lemma call_then_ready s f env :
  settled_cache s -> settled_cache (run fs [Call f env; Ready f] s).
Proof.
  intros Hs key. cbn [run fold_left].
  destruct (Hs key) as [H0|[H1 Hc]].
  2:{ right. split.
      - rewrite !step_opens_on_miss; auto using step_keeps_cached.
      - auto using step_keeps_cached. }
  cbn [step]. destruct (Config.getSSHConfig env fs) as [config|e].
  2:{ cbn [waiting]. destruct (waiting s !! f) as [[k0 c0]|]; left; exact H0. }
  destruct (connections s !! connectionKey config) eqn:Hk.
  { cbn [waiting]. destruct (waiting s !! f) as [[k0 c0]|]; left; exact H0. }
  cbn [waiting]. rewrite lookup_insert_eq.
  unfold opens_for in *. cbn [opened connections].
  rewrite filter_app, length_app, filter_cons, filter_nil. cbn [snd].
  destruct (decide (connectionKey config = key)) as [Heq|Hne].
  - right. rewrite H0, <- Heq, lookup_insert_eq. split; [reflexivity | eauto].
  - left. rewrite H0. reflexivity.
Qed.

Lemma one_at_a_time_settled calls s :
  settled_cache s -> settled_cache (run fs (one_at_a_time calls) s).
Proof.
  revert s. induction calls as [|[f env] calls IH]; intros s Hs; [exact Hs|].
  unfold one_at_a_time. cbn [flat_map fst snd].
  rewrite run_app. apply IH, call_then_ready, Hs.
Qed.

End SessionFacts.

(** C2, as stated, fails: two calls for the same key that both start before
    the first session is ready each find the cache empty and each call
    createSSHConnection. *)
Lemma overlapping_calls_open_twice :
  Session.opens_for "10.0.0.5:22:root"
    (Session.run no_files
       [Session.Call 1 env_password; Session.Call 2 env_password;
        Session.Ready 1; Session.Ready 2]
       Session.init) = 2.
Proof. vm_compute. reflexivity. Qed.

(** C2, amended: for every sequence of getSSHConnection calls that do not
    overlap (the session opened by a call is ready before the next call
    starts), createSSHConnection is invoked at most once per key.  Calls in
    flight at the same time are not serialized. *)
Theorem non_overlapping_calls_open_once fs calls key :
  Session.opens_for key (Session.run fs (Session.one_at_a_time calls) Session.init) <= 1.
Proof.
  destruct (one_at_a_time_settled fs calls Session.init) with (key := key) as [H|[H _]].
  - intros k. left. reflexivity.
  - lia.
  - lia.
Qed.

(** C7: a call that finds no session for its key calls
    createSSHConnection and stores nothing while the open is pending; when
    the open fails, the connections map is still as it was before the call
    and the flow throws the error; the next call for the key calls
    createSSHConnection again, and its session, once ready, is the one
    stored.  On any state, only a ready event changes the map. *)
Theorem failed_open_not_cached fs s f e env config :
  Config.getSSHConfig env fs = Return config ->
  Session.connections s !! Session.connectionKey config = None ->
  let client := length (Session.opened s) in
  let opening := Session.step fs s (Session.Call f env) in
  let failed := Session.step fs opening (Session.Failed f e) in
  Session.opened opening = (Session.opened s ++ [(client, config)])%list
  /\ Session.connections opening = Session.connections s
  /\ Session.connections failed = Session.connections s
  /\ Session.returned failed !! f = Some (Throw e)
  /\ (forall f',
        Session.opened (Session.step fs failed (Session.Call f' env))
        = (Session.opened s ++ [(client, config); (S client, config)])%list
        /\ Session.connections
             (Session.run fs [Session.Call f' env; Session.Ready f'] failed)
           !! Session.connectionKey config = Some (S client))
  /\ (forall s0 ev, (forall g, ev <> Session.Ready g) ->
        Session.connections (Session.step fs s0 ev) = Session.connections s0).
Proof.
  intros Hcfg Hmiss client opening failed.
  assert (Hopening : opening
                     = Session.mkState (Session.connections s)
                         (Session.opened s ++ [(client, config)])%list
                         (<[f := (Session.connectionKey config, client)]> (Session.waiting s))
                         (Session.returned s)).
  { unfold opening. cbn [Session.step]. rewrite Hcfg, Hmiss. reflexivity. }
  assert (Hfailed : failed
                    = Session.mkState (Session.connections s)
                        (Session.opened s ++ [(client, config)])%list
                        (delete f (<[f := (Session.connectionKey config, client)]>
                                     (Session.waiting s)))
                        (<[f := Throw e]> (Session.returned s))).
  { unfold failed. rewrite Hopening. cbn [Session.step Session.waiting].
    rewrite lookup_insert_eq. reflexivity. }
  rewrite Hfailed, Hopening. cbn [Session.opened Session.connections Session.returned].
  split; [reflexivity|]. split; [reflexivity|]. split; [reflexivity|].
  split; [apply lookup_insert_eq|]. split.
  - intros f'. cbn [Session.run fold_left Session.step Session.connections Session.opened].
    rewrite Hcfg, Hmiss. cbn [Session.opened Session.waiting Session.connections].
    rewrite lookup_insert_eq. cbn [Session.connections]. rewrite lookup_insert_eq.
    rewrite <- app_assoc, length_app. cbn [length app]. unfold client.
    rewrite Nat.add_1_r. split; reflexivity.
  - intros s0 ev Hev. destruct ev as [g env0|g|g e0]; cbn [Session.step].
    + destruct (Config.getSSHConfig env0 fs) as [config0|e0]; [|reflexivity].
      destruct (Session.connections s0 !! Session.connectionKey config0); reflexivity.
    + exfalso. exact (Hev g eq_refl).
    + destruct (Session.waiting s0 !! g); reflexivity.
Qed.

Lemma failed_open_not_cached_witness :
  Session.connections
    (Session.run no_files [Session.Call 1 env_password; Session.Failed 1 enoent] Session.init)
  = Session.connections Session.init
  /\ Session.opened
       (Session.run no_files
          [Session.Call 1 env_password; Session.Failed 1 enoent; Session.Call 2 env_password]
          Session.init)
     = [(0, cfg_password); (1, cfg_password)].
Proof.
  destruct (failed_open_not_cached no_files Session.init 1 enoent env_password cfg_password)
    as (_ & _ & Hsame & _ & Hretry & _).
  - vm_compute. reflexivity.
  - vm_compute. reflexivity.
  - split; [exact Hsame | exact (proj1 (Hretry 2))].
Defined.

(** ** One command on one channel *)

Section ExecFacts.
Import Exec.

Lemma append_cons c (s t : string) : String c s +:+ t = String c (s +:+ t).
Proof. reflexivity. Qed.

Lemma append_empty_r (s : string) : s +:+ "" = s.
Proof.
  induction s as [|c s IH]; [reflexivity|]. rewrite append_cons, IH. reflexivity.
Qed.

Lemma append_assoc (a b c : string) : (a +:+ b) +:+ c = a +:+ (b +:+ c).
Proof.
  induction a as [|x a IH]; [reflexivity|]. rewrite !append_cons, IH. reflexivity.
Qed.

(** Before any [close], events only feed the accumulators. *)
Lemma fold_before_close events ch :
  forallb (fun ev => negb (is_close ev)) events = true ->
  fold_left on_event events ch
  = mkChannel (acc_stdout ch +:+ stdout_of events) (acc_stderr ch +:+ stderr_of events)
      (resolved ch).
Proof.
  revert ch. induction events as [|ev events IH]; intros ch Hno.
  - cbn. rewrite !append_empty_r. destruct ch; reflexivity.
  - cbn [forallb] in Hno. apply andb_prop in Hno as [Hev Hno].
    cbn [fold_left]. rewrite IH by exact Hno.
    destruct ev; try discriminate Hev; cbn; rewrite ?append_assoc; reflexivity.
Qed.

(** Once resolved, the promise keeps its value. *)
Lemma fold_after_close events ch result :
  resolved ch = Some result -> resolved (fold_left on_event events ch) = Some result.
Proof.
  revert ch. induction events as [|ev events IH]; intros ch Hres; [exact Hres|].
  cbn [fold_left]. apply IH. destruct ev; cbn; rewrite ?Hres; first [exact Hres | reflexivity].
Qed.

Lemma deliver_no_close events :
  forallb (fun ev => negb (is_close ev)) events = true ->
  resolved (deliver events) = None.
Proof. intros Hno. unfold deliver. rewrite fold_before_close by exact Hno. reflexivity. Qed.

Lemma deliver_first_close pre code post :
  forallb (fun ev => negb (is_close ev)) pre = true ->
  resolved (deliver (pre ++ Close code :: post))
  = Some (mkResult (stdout_of pre) (stderr_of pre) code).
Proof.
  intros Hno. unfold deliver. rewrite fold_left_app, (fold_before_close pre) by exact Hno.
  cbn [fold_left]. apply fold_after_close. reflexivity.
Qed.

End ExecFacts.

(** C5: on an opened channel executeRemoteCommand stays pending as long as
    no [close] has been delivered, whatever [data], [end] and [exit] events
    arrive; at the first [close] it resolves with the exit code delivered
    by that event and the standard output and standard error text
    accumulated up to it. *)
Theorem executeRemoteCommand_resolves_at_close
    (Client : Type) (c : Client) exec command events :
  exec c command = Exec.Opened events ->
  (forallb (fun ev => negb (Exec.is_close ev)) events = true ->
     Exec.executeRemoteCommand (Fulfilled c) exec command = Pending)
  /\ (forall pre code post,
        events = (pre ++ Exec.Close code :: post)%list ->
        forallb (fun ev => negb (Exec.is_close ev)) pre = true ->
        Exec.executeRemoteCommand (Fulfilled c) exec command
        = Fulfilled (Exec.mkResult (Exec.stdout_of pre) (Exec.stderr_of pre) code)).
Proof.
  intros Hexec. unfold Exec.executeRemoteCommand. rewrite Hexec. split.
  - intros Hno. rewrite deliver_no_close by exact Hno. reflexivity.
  - intros pre code post -> Hno. rewrite deliver_first_close by exact Hno. reflexivity.
Qed.

Lemma executeRemoteCommand_resolves_at_close_witness :
  Exec.executeRemoteCommand (Fulfilled 0)
    (fun _ _ => Exec.Opened [Exec.Data "ab"; Exec.End_; Exec.StderrData "warn";
                             Exec.Data "c"; Exec.Exit_ 127; Exec.Close 127;
                             Exec.Data "late"])
    "ls"
  = Fulfilled (Exec.mkResult "abc" "warn" 127).
Proof.
  refine (proj2 (executeRemoteCommand_resolves_at_close nat 0 _ "ls" _ eq_refl)
            [Exec.Data "ab"; Exec.End_; Exec.StderrData "warn"; Exec.Data "c"; Exec.Exit_ 127]
            127%Z [Exec.Data "late"] eq_refl eq_refl).
Defined.

(** ** Promise.all *)

Section AllFacts.
Context {A : Type}.
Implicit Types (vs : list A) (slots : list (option A)) (order : list nat).

Lemma collect_Some slots ws : collect slots = Some ws -> slots = map Some ws.
Proof.
  revert ws. induction slots as [|[v|] slots IH]; intros ws; cbn.
  - intros [= <-]. reflexivity.
  - destruct (collect slots) as [vs|]; [|discriminate].
    intros [= <-]. cbn. f_equal. apply IH. reflexivity.
  - discriminate.
Qed.

Lemma collect_map_Some vs : collect (map Some vs) = Some vs.
Proof. induction vs as [|v vs IH]; cbn; [reflexivity | rewrite IH; reflexivity]. Qed.

Lemma filling_done vs slots : filling vs slots [] -> slots = map Some vs.
Proof.
  intros [Hlen Hall]. apply list_eq. intros i.
  rewrite list_lookup_fmap. destruct (vs !! i) as [v|] eqn:Hv; cbn.
  - destruct (Hall i v Hv) as [H|[_ H]]; [exact H|]. inversion H.
  - apply lookup_ge_None. rewrite Hlen. apply lookup_ge_None, Hv.
Qed.

Lemma filling_full vs slots order ws :
  filling vs slots order -> collect slots = Some ws -> ws = vs.
Proof.
  intros [Hlen Hall] Hws. apply collect_Some in Hws. subst slots.
  apply (inj (map Some)). apply filling_done. split; [exact Hlen|].
  intros i v Hv. destruct (Hall i v Hv) as [H|[H _]]; [left; exact H|].
  rewrite list_lookup_fmap in H. destruct (ws !! i); discriminate H.
Qed.

Lemma all_loop_fills vs slots order :
  filling vs slots order -> collect slots = None ->
  all_loop (map Fulfilled vs) slots order = Fulfilled vs.
Proof.
  revert slots. induction order as [|i order IH]; intros slots Hfill Hnone.
  - apply filling_done in Hfill. subst slots. rewrite collect_map_Some in Hnone.
    discriminate.
  - cbn [all_loop]. rewrite list_lookup_fmap.
    destruct Hfill as [Hlen Hall].
    destruct (vs !! i) as [v|] eqn:Hv; cbn [fmap option_fmap option_map].
    + assert (Hfill' : filling vs (<[i := Some v]> slots) order).
      { split; [rewrite length_insert; exact Hlen|].
        intros j w Hw. destruct (decide (j = i)) as [->|Hne].
        - left. rewrite list_lookup_insert_eq.
          + congruence.
          + rewrite Hlen. apply lookup_lt_Some in Hv. exact Hv.
        - rewrite list_lookup_insert_ne by congruence.
          destruct (Hall j w Hw) as [H|[H Hin]]; [left; exact H|].
          right. split; [exact H|]. apply elem_of_cons in Hin as [Heq|Hin];
            [contradiction | exact Hin]. }
      destruct (collect (<[i := Some v]> slots)) as [ws|] eqn:Hws.
      * f_equal. eapply filling_full; eassumption.
      * apply IH; assumption.
    + apply IH; [|exact Hnone]. split; [exact Hlen|].
      intros j w Hw. destruct (Hall j w Hw) as [H|[H Hin]]; [left; exact H|].
      right. split; [exact H|]. apply elem_of_cons in Hin as [->|Hin];
        [congruence | exact Hin].
Qed.

(** When every promise is fulfilled, the combined result lists the values
    by position, whatever the order in which they arrived. *)
Lemma all_fulfilled vs order :
  (forall i, i < length vs -> i ∈ order) ->
  Promise.all (map Fulfilled vs) order = Fulfilled vs.
Proof.
  intros Hcover. destruct vs as [|v vs]; [reflexivity|].
  cbn [Promise.all map]. change (Fulfilled v :: map Fulfilled vs) with (map Fulfilled (v :: vs)).
  rewrite length_map. apply all_loop_fills; [|reflexivity].
  split; [apply length_replicate|].
  intros i w Hw. right. apply lookup_lt_Some in Hw.
  split; [apply lookup_replicate_2, Hw | apply Hcover, Hw].
Qed.

End AllFacts.

(** ** The tool handler *)

Section ToolFacts.
Import Tool.

Variable remote_exec : string -> Settled Exec.ExecResult.
Variable remote_read : string -> Settled string.
Variable remote_upload : string -> string -> Settled unit.
Variable remote_download : string -> string -> Settled unit.
Variable completion : list nat.

Lemma imap_labels (commands : list string) (results : list Exec.ExecResult) :
  length results = length commands ->
  imap (fun index result =>
          "=== " +:+ default "undefined" (commands !! index) +:+ " ===" +:+ nl
          +:+ Exec.stdout result +:+ nl) results
  = zip_with labelled commands results.
Proof.
  revert results. induction commands as [|cmd commands IH]; intros [|r results] Hlen;
    try discriminate Hlen; [reflexivity|].
  cbn [imap zip_with]. f_equal. rewrite <- IH by (cbn in Hlen; lia).
  apply imap_ext. reflexivity.
Qed.

Lemma system_monitor_response request log results :
  name request = "system_monitor" ->
  let monitorType := toString (or_else (arg request "type") (JStr "all")) in
  let commands := monitor_commands monitorType in
  map remote_exec commands = map Fulfilled results ->
  (forall i, i < length commands -> i ∈ completion) ->
  callTool remote_exec remote_read remote_upload remote_download completion request log
  = (Fulfilled (mkResponse (monitor_text monitorType commands results) false),
     (log ++ map ExecuteRemoteCommand commands)%list).
Proof.
  intros Hname monitorType commands Hexec Hcover.
  assert (Hlen : length results = length commands).
  { rewrite <- (length_map Fulfilled results), <- Hexec, length_map. reflexivity. }
  unfold callTool, try_catch, dispatch. rewrite Hname.
  change (String.eqb "system_monitor" "execute_command") with false.
  change (String.eqb "system_monitor" "read_file") with false.
  change (String.eqb "system_monitor" "write_file") with false.
  change (String.eqb "system_monitor" "upload_file") with false.
  change (String.eqb "system_monitor" "download_file") with false.
  change (String.eqb "system_monitor" "list_directory") with false.
  change (String.eqb "system_monitor" "system_monitor") with true.
  cbv iota. fold monitorType. fold commands.
  unfold bind, executeAll. rewrite Hexec, all_fulfilled by (rewrite Hlen; exact Hcover).
  unfold ret, monitor_output, monitor_text. rewrite imap_labels by exact Hlen.
  reflexivity.
Qed.

End ToolFacts.

Section ToolClaims.
Import Tool.

Variable remote_exec : string -> Settled Exec.ExecResult.
Variable remote_read : string -> Settled string.
Variable remote_upload : string -> string -> Settled unit.
Variable remote_download : string -> string -> Settled unit.
Variable completion : list nat.

Lemma kind_is_its_own_type kind :
  kind ∈ monitor_kinds -> toString (or_else (JStr kind) (JStr "all")) = kind.
Proof.
  unfold monitor_kinds. intros Hin.
  repeat (apply elem_of_cons in Hin as [->|Hin]; [reflexivity|]).
  inversion Hin.
Qed.

Lemma other_type_commands monitorType :
  monitorType ∉ ["cpu"; "memory"; "disk"; "network"] ->
  monitor_commands monitorType = all_commands.
Proof.
  intros Hnot. unfold monitor_commands.
  destruct (String.eqb_spec monitorType "cpu") as [->|_]; [exfalso; apply Hnot; in_list|].
  destruct (String.eqb_spec monitorType "memory") as [->|_]; [exfalso; apply Hnot; in_list|].
  destruct (String.eqb_spec monitorType "disk") as [->|_]; [exfalso; apply Hnot; in_list|].
  destruct (String.eqb_spec monitorType "network") as [->|_]; [exfalso; apply Hnot; in_list|].
  reflexivity.
Qed.

Lemma string_type_not_named s :
  s ∉ ["cpu"; "memory"; "disk"; "network"] ->
  toString (or_else (JStr s) (JStr "all")) ∉ ["cpu"; "memory"; "disk"; "network"].
Proof.
  intros Hnot. unfold or_else, truthy.
  destruct (String.eqb_spec s "") as [->|_]; cbn [negb toString]; [|exact Hnot].
  intros Hin. repeat (apply elem_of_cons in Hin as [Heq|Hin]; [discriminate Heq|]).
  inversion Hin.
Qed.

(** Every command of the list is started, whatever becomes of the others. *)
Lemma system_monitor_calls request log :
  name request = "system_monitor" ->
  snd (callTool remote_exec remote_read remote_upload remote_download completion request log)
  = (log ++ map ExecuteRemoteCommand
              (monitor_commands (toString (or_else (arg request "type") (JStr "all")))))%list.
Proof.
  intros Hname. unfold callTool, try_catch, dispatch. rewrite Hname.
  change (String.eqb "system_monitor" "execute_command") with false.
  change (String.eqb "system_monitor" "read_file") with false.
  change (String.eqb "system_monitor" "write_file") with false.
  change (String.eqb "system_monitor" "upload_file") with false.
  change (String.eqb "system_monitor" "download_file") with false.
  change (String.eqb "system_monitor" "list_directory") with false.
  change (String.eqb "system_monitor" "system_monitor") with true.
  cbv iota. unfold bind, executeAll. destruct (Promise.all _ _); reflexivity.
Qed.

Ltac list_literal :=
  match goal with
  | |- map _ ?l = _ => let v := eval vm_compute in l in change l with v
  end;
  cbn [map].

Ltac monitor_text_literal :=
  cbv [monitor_text join zip_with labelled nl newline];
  repeat rewrite append_assoc; reflexivity.

(** C6: for each of the five monitor kinds the handler calls
    executeRemoteCommand for every command of the kind's fixed list, in list
    order, before any of them has completed and whatever becomes of the
    others; when they all complete, in whatever order, the response holds
    the outputs in list order, each under the label of its command.  The
    list of kind memory is the two memory commands. *)
Theorem system_monitor_output_in_list_order request log :
  name request = "system_monitor" ->
  let answer :=
    callTool remote_exec remote_read remote_upload remote_download completion request log in
  (arg request "type" = JStr "cpu" ->
     snd answer = (log ++ [ExecuteRemoteCommand "top -bn1 | head -20"])%list
     /\ forall r1,
          remote_exec "top -bn1 | head -20" = Fulfilled r1 ->
          (forall i, i < 1 -> i ∈ completion) ->
          fst answer
          = Fulfilled (mkResponse ("系统监控 (cpu):

=== top -bn1 | head -20 ===
" +:+ Exec.stdout r1 +:+ "
") false))
  /\ (arg request "type" = JStr "memory" ->
        snd answer = (log ++ [ExecuteRemoteCommand "free -h";
                              ExecuteRemoteCommand "cat /proc/meminfo | head -10"])%list
        /\ forall r1 r2,
             remote_exec "free -h" = Fulfilled r1 ->
             remote_exec "cat /proc/meminfo | head -10" = Fulfilled r2 ->
             (forall i, i < 2 -> i ∈ completion) ->
             fst answer
             = Fulfilled (mkResponse ("系统监控 (memory):

=== free -h ===
" +:+ Exec.stdout r1 +:+ "

=== cat /proc/meminfo | head -10 ===
" +:+ Exec.stdout r2 +:+ "
") false))
  /\ (arg request "type" = JStr "disk" ->
        snd answer = (log ++ [ExecuteRemoteCommand "df -h"; ExecuteRemoteCommand "lsblk"])%list
        /\ forall r1 r2,
             remote_exec "df -h" = Fulfilled r1 ->
             remote_exec "lsblk" = Fulfilled r2 ->
             (forall i, i < 2 -> i ∈ completion) ->
             fst answer
             = Fulfilled (mkResponse ("系统监控 (disk):

=== df -h ===
" +:+ Exec.stdout r1 +:+ "

=== lsblk ===
" +:+ Exec.stdout r2 +:+ "
") false))
  /\ (arg request "type" = JStr "network" ->
        snd answer = (log ++ [ExecuteRemoteCommand "netstat -tuln";
                              ExecuteRemoteCommand "ss -tuln"])%list
        /\ forall r1 r2,
             remote_exec "netstat -tuln" = Fulfilled r1 ->
             remote_exec "ss -tuln" = Fulfilled r2 ->
             (forall i, i < 2 -> i ∈ completion) ->
             fst answer
             = Fulfilled (mkResponse ("系统监控 (network):

=== netstat -tuln ===
" +:+ Exec.stdout r1 +:+ "

=== ss -tuln ===
" +:+ Exec.stdout r2 +:+ "
") false))
  /\ (arg request "type" = JStr "all" ->
        snd answer = (log ++ [ExecuteRemoteCommand "uptime"; ExecuteRemoteCommand "free -h";
                              ExecuteRemoteCommand "df -h";
                              ExecuteRemoteCommand "top -bn1 | head -10";
                              ExecuteRemoteCommand "netstat -tuln | head -10"])%list
        /\ forall r1 r2 r3 r4 r5,
             remote_exec "uptime" = Fulfilled r1 ->
             remote_exec "free -h" = Fulfilled r2 ->
             remote_exec "df -h" = Fulfilled r3 ->
             remote_exec "top -bn1 | head -10" = Fulfilled r4 ->
             remote_exec "netstat -tuln | head -10" = Fulfilled r5 ->
             (forall i, i < 5 -> i ∈ completion) ->
             fst answer
             = Fulfilled (mkResponse ("系统监控 (all):

=== uptime ===
" +:+ Exec.stdout r1 +:+ "

=== free -h ===
" +:+ Exec.stdout r2 +:+ "

=== df -h ===
" +:+ Exec.stdout r3 +:+ "

=== top -bn1 | head -10 ===
" +:+ Exec.stdout r4 +:+ "

=== netstat -tuln | head -10 ===
" +:+ Exec.stdout r5 +:+ "
") false)).
Proof.
  intros Hname answer.
  pose proof (system_monitor_calls request log Hname) as Hcalls. fold answer in Hcalls.
  assert (Hanswer : forall results,
            map remote_exec
              (monitor_commands (toString (or_else (arg request "type") (JStr "all"))))
            = map Fulfilled results ->
            (forall i,
               i < length (monitor_commands
                             (toString (or_else (arg request "type") (JStr "all")))) ->
               i ∈ completion) ->
            fst answer
            = Fulfilled
                (mkResponse
                   (monitor_text (toString (or_else (arg request "type") (JStr "all")))
                      (monitor_commands
                         (toString (or_else (arg request "type") (JStr "all")))) results)
                   false)).
  { intros results Hexec Hcover. unfold answer.
    rewrite (system_monitor_response remote_exec remote_read remote_upload remote_download
               completion request log results Hname Hexec Hcover). reflexivity. }
  split; [|split; [|split; [|split]]]; intros Htype; rewrite Htype in Hcalls, Hanswer;
    match type of Hcalls with
    | context [monitor_commands ?x] =>
        let v := eval vm_compute in (monitor_commands x) in
        change (monitor_commands x) with v in Hcalls, Hanswer
    end;
    match type of Hanswer with
    | context [monitor_text ?x] =>
        let v := eval vm_compute in x in change x with v in Hanswer
    end;
    cbn [map length] in Hcalls, Hanswer;
    (split; [exact Hcalls|]).
  - intros r1 H1 Hcover. rewrite (Hanswer [r1]); [f_equal; f_equal; monitor_text_literal| |exact Hcover].
    rewrite H1. reflexivity.
  - intros r1 r2 H1 H2 Hcover.
    rewrite (Hanswer [r1; r2]); [f_equal; f_equal; monitor_text_literal| |exact Hcover].
    rewrite H1, H2. reflexivity.
  - intros r1 r2 H1 H2 Hcover.
    rewrite (Hanswer [r1; r2]); [f_equal; f_equal; monitor_text_literal| |exact Hcover].
    rewrite H1, H2. reflexivity.
  - intros r1 r2 H1 H2 Hcover.
    rewrite (Hanswer [r1; r2]); [f_equal; f_equal; monitor_text_literal| |exact Hcover].
    rewrite H1, H2. reflexivity.
  - intros r1 r2 r3 r4 r5 H1 H2 H3 H4 H5 Hcover.
    rewrite (Hanswer [r1; r2; r3; r4; r5]);
      [f_equal; f_equal; monitor_text_literal| |exact Hcover].
    rewrite H1, H2, H3, H4, H5. reflexivity.
Qed.

(** C10: a type string other than cpu, memory, disk and network is not
    rejected: the five commands of the all list are called, and when they
    complete the response, not flagged as an error, holds their outputs in
    list order, each under the label of its command.  The header names the
    type as given, or all when it is the empty string. *)
Theorem system_monitor_other_type_runs_all request log s :
  name request = "system_monitor" ->
  arg request "type" = JStr s ->
  s ∉ ["cpu"; "memory"; "disk"; "network"] ->
  let answer :=
    callTool remote_exec remote_read remote_upload remote_download completion request log in
  snd answer = (log ++ [ExecuteRemoteCommand "uptime"; ExecuteRemoteCommand "free -h";
                        ExecuteRemoteCommand "df -h";
                        ExecuteRemoteCommand "top -bn1 | head -10";
                        ExecuteRemoteCommand "netstat -tuln | head -10"])%list
  /\ forall r1 r2 r3 r4 r5,
       remote_exec "uptime" = Fulfilled r1 ->
       remote_exec "free -h" = Fulfilled r2 ->
       remote_exec "df -h" = Fulfilled r3 ->
       remote_exec "top -bn1 | head -10" = Fulfilled r4 ->
       remote_exec "netstat -tuln | head -10" = Fulfilled r5 ->
       (forall i, i < 5 -> i ∈ completion) ->
       fst answer
       = Fulfilled (mkResponse ("系统监控 (" +:+ (if String.eqb s "" then "all" else s) +:+ "):

=== uptime ===
" +:+ Exec.stdout r1 +:+ "

=== free -h ===
" +:+ Exec.stdout r2 +:+ "

=== df -h ===
" +:+ Exec.stdout r3 +:+ "

=== top -bn1 | head -10 ===
" +:+ Exec.stdout r4 +:+ "

=== netstat -tuln | head -10 ===
" +:+ Exec.stdout r5 +:+ "
") false).
Proof.
  intros Hname Htype Hnot answer.
  assert (Htext : toString (or_else (arg request "type") (JStr "all"))
                  = if String.eqb s "" then "all" else s).
  { rewrite Htype. unfold or_else, truthy. destruct (String.eqb s ""); reflexivity. }
  assert (Hall : monitor_commands (toString (or_else (arg request "type") (JStr "all")))
                 = all_commands).
  { rewrite Htype. apply other_type_commands, string_type_not_named, Hnot. }
  pose proof (system_monitor_calls request log Hname) as Hcalls. fold answer in Hcalls.
  rewrite Hall in Hcalls. split; [exact Hcalls|].
  intros r1 r2 r3 r4 r5 H1 H2 H3 H4 H5 Hcover.
  pose proof (system_monitor_response remote_exec remote_read remote_upload remote_download
                completion request log [r1; r2; r3; r4; r5] Hname) as Hanswer.
  cbv zeta in Hanswer. rewrite Hall, Htext in Hanswer. fold answer in Hanswer.
  rewrite Hanswer; [|cbn [map all_commands]; rewrite H1, H2, H3, H4, H5; reflexivity
                    |exact Hcover].
  cbn [fst]. f_equal. f_equal.
  cbv [monitor_text all_commands join zip_with labelled nl newline].
  repeat rewrite append_assoc. reflexivity.
Qed.

(** What the [try] block does achieve: the handler never settles as
    rejected; whenever its body throws or awaits a promise that rejects, it
    answers with an error-flagged response whose text is the string form of
    the thrown error; in particular a read_file whose remote read fails
    yields that response. *)
Lemma callTool_catches_rejections request log :
  (forall e,
     fst (callTool remote_exec remote_read remote_upload remote_download completion
            request log) <> Rejected e)
  /\ (forall e log',
        dispatch remote_exec remote_read remote_upload remote_download completion
          request log = (Rejected e, log') ->
        callTool remote_exec remote_read remote_upload remote_download completion
          request log
        = (Fulfilled (mkResponse ("错误: " +:+ error_toString e) true), log'))
  /\ (forall filePath e,
        name request = "read_file" ->
        toString (arg request "path") = filePath -> filePath <> "" ->
        remote_read filePath = Rejected e ->
        callTool remote_exec remote_read remote_upload remote_download completion
          request log
        = (Fulfilled (mkResponse ("错误: " +:+ error_toString e) true),
           (log ++ [GetRemoteFileContent filePath])%list)).
Proof.
  split; [|split].
  - intros e. unfold callTool, try_catch.
    destruct (dispatch _ _ _ _ _ request log) as [[r|e'| |e'] log']; cbn; discriminate.
  - intros e log' Hd. unfold callTool, try_catch. rewrite Hd. reflexivity.
  - intros filePath e Hname Hpath Hne Hread.
    unfold callTool, try_catch, dispatch. rewrite Hname, Hpath.
    change (String.eqb "read_file" "execute_command") with false.
    change (String.eqb "read_file" "read_file") with true.
    cbv iota. unfold str_falsy.
    destruct (String.eqb_spec filePath ""); [contradiction|].
    unfold bind, getRemoteFileContent. rewrite Hread. reflexivity.
Qed.

(** The validation does reject a [command] that is present and empty, and
    then nothing is called. *)
Lemma execute_command_empty_command_rejected log :
  callTool remote_exec remote_read remote_upload remote_download completion
    (mkRequest "execute_command" (Some {[ "command" := JStr "" ]})) log
  = (Fulfilled (mkResponse "错误: Error: Command is required" true), log).
Proof. reflexivity. Qed.

(** C3 on the code: execute_command with no arguments, or with no
    [command] among them, passes the validation test, because String(undefined)
    is the non-empty text "undefined", and executeRemoteCommand is called
    with that text. *)
Theorem execute_command_without_command_runs_undefined log :
  snd (callTool remote_exec remote_read remote_upload remote_download completion
         (mkRequest "execute_command" None) log)
  = (log ++ [ExecuteRemoteCommand "undefined"])%list
  /\ snd (callTool remote_exec remote_read remote_upload remote_download completion
            (mkRequest "execute_command" (Some ∅)) log)
     = (log ++ [ExecuteRemoteCommand "undefined"])%list.
Proof.
  split; unfold callTool, try_catch, dispatch, bind, executeRemoteCommand, name;
    change (String.eqb "execute_command" "execute_command") with true; cbv iota;
    change (toString (arg _ "command")) with "undefined";
    change (str_falsy "undefined") with false; cbv iota;
    destruct (remote_exec "undefined"); reflexivity.
Qed.

(** C1 on the code: for the content made of [a], a double quote and
    [b$(whoami)], the command built by write_file keeps [$(whoami)] inside
    double quotes, where the shell runs it as a command substitution, and
    that command is what the handler executes. *)
Theorem write_file_command_runs_substitution :
  write_file_command "/tmp/x" quoted_content
  = "echo " +:+ String dquote ("a" +:+ String backslash (String dquote
      ("b$(whoami)" +:+ String dquote (" > " +:+ String dquote ("/tmp/x" +:+ String dquote "")))))
  /\ Shell.runs_substitution Shell.Unquoted (write_file_command "/tmp/x" quoted_content) = true
  /\ snd (callTool remote_exec remote_read remote_upload remote_download completion
            write_request [])
     = [ExecuteRemoteCommand (write_file_command "/tmp/x" quoted_content)].
Proof.
  split; [vm_compute; reflexivity|]. split; [vm_compute; reflexivity|].
  unfold callTool, try_catch, dispatch, bind, executeRemoteCommand.
  change (name write_request) with "write_file".
  change (String.eqb "write_file" "execute_command") with false.
  change (String.eqb "write_file" "read_file") with false.
  change (String.eqb "write_file" "write_file") with true.
  cbv iota.
  change (toString (arg write_request "path")) with "/tmp/x".
  change (toString (arg write_request "content")) with quoted_content.
  change (str_falsy "/tmp/x" || str_falsy quoted_content) with false. cbv iota.
  destruct (remote_exec _) as [r| | |]; [destruct (Exec.exitCode r =? 0)%Z|..]; reflexivity.
Qed.

(** C8 on the code: upload_file of a local file that cannot be opened.  The
    read stream emits [error], uploadFile listens for errors on the write
    stream only, so the error is thrown as an uncaught exception: the handler
    produces no response and the [catch] never runs. *)
Theorem upload_file_read_error_is_uncaught :
  callTool remote_exec remote_read
    (Transfer.uploadFile (Fulfilled 0) missing_source) remote_download completion
    upload_request []
  = (Uncaught enoent, [UploadFile "/home/me/missing.txt" "/tmp/copy.txt"]).
Proof.
  unfold callTool, try_catch, dispatch, bind, uploadFile.
  change (name upload_request) with "upload_file".
  change (String.eqb "upload_file" "execute_command") with false.
  change (String.eqb "upload_file" "read_file") with false.
  change (String.eqb "upload_file" "write_file") with false.
  change (String.eqb "upload_file" "upload_file") with true.
  cbv iota.
  change (toString (arg upload_request "local_path")) with "/home/me/missing.txt".
  change (toString (arg upload_request "remote_path")) with "/tmp/copy.txt".
  reflexivity.
Qed.

End ToolClaims.

Lemma system_monitor_output_in_list_order_witness :
  Tool.callTool echo_exec (fun _ => never) (fun _ _ => never) (fun _ _ => never) [1; 0]
    (monitor_request "memory") []
  = (Fulfilled (Tool.mkResponse "系统监控 (memory):

=== free -h ===
<free -h>

=== cat /proc/meminfo | head -10 ===
<cat /proc/meminfo | head -10>
" false),
     [Tool.ExecuteRemoteCommand "free -h";
      Tool.ExecuteRemoteCommand "cat /proc/meminfo | head -10"]).
Proof.
  destruct (proj1 (proj2 (system_monitor_output_in_list_order echo_exec (fun _ => never)
                            (fun _ _ => never) (fun _ _ => never) [1; 0]
                            (monitor_request "memory") [] eq_refl)) eq_refl)
    as [Hcalls Htext].
  specialize (Htext (sample_result "free -h")
                (sample_result "cat /proc/meminfo | head -10") eq_refl eq_refl).
  apply injective_projections; [apply Htext | exact Hcalls].
  intros i Hi. destruct i as [|[|i]]; [in_list | in_list | lia].
Defined.

Lemma system_monitor_other_type_runs_all_witness :
  Tool.callTool echo_exec (fun _ => never) (fun _ _ => never) (fun _ _ => never)
    [4; 2; 0; 3; 1] (monitor_request "gpu") []
  = (Fulfilled (Tool.mkResponse "系统监控 (gpu):

=== uptime ===
<uptime>

=== free -h ===
<free -h>

=== df -h ===
<df -h>

=== top -bn1 | head -10 ===
<top -bn1 | head -10>

=== netstat -tuln | head -10 ===
<netstat -tuln | head -10>
" false),
     [Tool.ExecuteRemoteCommand "uptime"; Tool.ExecuteRemoteCommand "free -h";
      Tool.ExecuteRemoteCommand "df -h"; Tool.ExecuteRemoteCommand "top -bn1 | head -10";
      Tool.ExecuteRemoteCommand "netstat -tuln | head -10"]).
Proof.
  assert (Hother : "gpu" ∉ ["cpu"; "memory"; "disk"; "network"]).
  { intros Hin. repeat (apply elem_of_cons in Hin as [Heq|Hin]; [discriminate Heq|]).
    inversion Hin. }
  destruct (system_monitor_other_type_runs_all echo_exec (fun _ => never)
              (fun _ _ => never) (fun _ _ => never) [4; 2; 0; 3; 1]
              (monitor_request "gpu") [] "gpu" eq_refl eq_refl Hother) as [Hcalls Htext].
  specialize (Htext (sample_result "uptime") (sample_result "free -h")
                (sample_result "df -h") (sample_result "top -bn1 | head -10")
                (sample_result "netstat -tuln | head -10")
                eq_refl eq_refl eq_refl eq_refl eq_refl).
  apply injective_projections; [apply Htext | exact Hcalls].
  intros i Hi. do 5 (destruct i as [|i]; [in_list|]). lia.
Defined.

(** * Further properties of the code *)

Import Scenarios.

(** ** The credential resolver *)

(** X1: when a non-empty SSH_PASSWORD is set, the resolver does not read
    the local file system and ignores SSH_PRIVATE_KEY_PATH and
    SSH_PASSPHRASE: its result is the same for every file system and with
    those two variables removed. *)
Theorem getSSHConfig_password_skips_key_file env fs fs' :
  opt_falsy (env !! "SSH_PASSWORD") = false ->
  Config.getSSHConfig env fs = Config.getSSHConfig env fs'
  /\ Config.getSSHConfig (delete "SSH_PRIVATE_KEY_PATH" (delete "SSH_PASSPHRASE" env)) fs
     = Config.getSSHConfig env fs.
Proof.
  intros Hpw. rewrite !getSSHConfig_cases. unfold Config.env_or.
  assert (Hkeep : forall k, "SSH_PRIVATE_KEY_PATH" <> k -> "SSH_PASSPHRASE" <> k ->
            delete "SSH_PRIVATE_KEY_PATH" (delete "SSH_PASSPHRASE" env) !! k = env !! k).
  { intros k H1 H2. rewrite !lookup_delete_ne by assumption. reflexivity. }
  rewrite (Hkeep "SSH_HOST"), (Hkeep "SSH_USERNAME"), (Hkeep "SSH_PORT"),
    (Hkeep "SSH_PASSWORD") by (intros [=]).
  rewrite Hpw. split; reflexivity.
Qed.

Lemma getSSHConfig_password_skips_key_file_witness :
  Config.getSSHConfig (<["SSH_PRIVATE_KEY_PATH" := "/k.pem"]> env_password) no_files
  = Config.getSSHConfig (<["SSH_PRIVATE_KEY_PATH" := "/k.pem"]> env_password)
      (fun _ => Return "KEY").
Proof.
  refine (proj1 (getSSHConfig_password_skips_key_file
                   (<["SSH_PRIVATE_KEY_PATH" := "/k.pem"]> env_password)
                   no_files (fun _ => Return "KEY") _)).
  vm_compute. reflexivity.
Defined.

(** X2: a configuration the resolver returns has a non-empty host and
    username and exactly one credential: a non-empty password with no key
    and no passphrase, or key material with no password, where a passphrase,
    if present, is non-empty. *)
Theorem getSSHConfig_one_credential env fs cfg :
  Config.getSSHConfig env fs = Return cfg ->
  Config.host cfg <> "" /\ Config.username cfg <> ""
  /\ ((exists pw, pw <> "" /\ Config.password cfg = Some pw
                  /\ Config.privateKey cfg = None /\ Config.passphrase cfg = None)
      \/ (Config.password cfg = None /\ (exists key, Config.privateKey cfg = Some key)
          /\ Config.passphrase cfg <> Some "")).
Proof.
  rewrite getSSHConfig_cases.
  destruct (env !! "SSH_HOST") as [h|]; [|discriminate].
  destruct (env !! "SSH_USERNAME") as [u|];
    [|cbn [opt_falsy]; rewrite orb_true_r; discriminate].
  cbn [opt_falsy default]. unfold str_falsy.
  destruct (String.eqb_spec h "") as [|Hh]; [discriminate|].
  destruct (String.eqb_spec u "") as [|Hu]; [discriminate|].
  cbn [orb]. cbv zeta.
  destruct (env !! "SSH_PASSWORD") as [pw|]; cbn [opt_falsy default].
  - unfold str_falsy. destruct (String.eqb_spec pw "") as [->|Hpw].
    + destruct (opt_falsy (env !! "SSH_PRIVATE_KEY_PATH")); [discriminate|].
      destruct (fs _) as [key|]; [|discriminate].
      intros [= <-]. cbn. repeat split; try assumption. right.
      repeat split; eauto.
      destruct (env !! "SSH_PASSPHRASE") as [pp|]; cbn [opt_falsy default]; [|discriminate].
      unfold str_falsy. destruct (String.eqb_spec pp ""); [discriminate | cbn; congruence].
    + cbv iota. intros [= <-]. cbn. repeat split; try assumption. left. eauto.
  - destruct (opt_falsy (env !! "SSH_PRIVATE_KEY_PATH")); [discriminate|].
    destruct (fs _) as [key|]; [|discriminate].
    intros [= <-]. cbn. repeat split; try assumption. right.
    repeat split; eauto.
    destruct (env !! "SSH_PASSPHRASE") as [pp|]; cbn [opt_falsy default]; [|discriminate].
    unfold str_falsy. destruct (String.eqb_spec pp ""); [discriminate | cbn; congruence].
Qed.

Lemma getSSHConfig_one_credential_witness :
  Config.host cfg_password <> "" /\ Config.username cfg_password <> ""
  /\ ((exists pw, pw <> "" /\ Config.password cfg_password = Some pw
                  /\ Config.privateKey cfg_password = None
                  /\ Config.passphrase cfg_password = None)
      \/ (Config.password cfg_password = None
          /\ (exists key, Config.privateKey cfg_password = Some key)
          /\ Config.passphrase cfg_password <> Some "")).
Proof.
  refine (getSSHConfig_one_credential env_password no_files cfg_password _).
  vm_compute. reflexivity.
Defined.

Section DecimalPort.

Lemma trim_start_plain c rest :
  (nat_of_ascii c <? 128)%nat && negb (is_ascii_space c) = true ->
  trim_start (String c rest) = String c rest.
Proof.
  intros Hc.
  destruct c as [[] [] [] [] [] [] [] []]; try discriminate Hc;
    destruct rest as [|c2 [|c3 r3]]; reflexivity.
Qed.

Lemma digits_from_positive d acc :
  digits_prefix 10 (Some (Z.pos acc)) (NilEmpty.string_of_uint d)
  = Some (Z.pos (Pos.of_uint_acc d acc)).
Proof.
  revert acc. induction d; intros acc; [reflexivity|..];
    cbn [NilEmpty.string_of_uint digits_prefix Pos.of_uint_acc];
    match goal with
    | |- context [digit_value ?c] =>
        let v := eval vm_compute in (digit_value c) in
        change (digit_value c) with v
    end;
    cbv iota beta;
    match goal with
    | |- context [(?k <? 10)%Z] => change (k <? 10)%Z with true
    end;
    cbv iota; cbn [default]; rewrite <- IHd; do 2 f_equal; unfold id; lia.
Qed.

Lemma digits_from_zero d :
  digits_prefix 10 (Some 0%Z) (NilEmpty.string_of_uint d) = Some (Z.of_N (Pos.of_uint d)).
Proof.
  induction d; [reflexivity|..];
    cbn [NilEmpty.string_of_uint digits_prefix Pos.of_uint];
    match goal with
    | |- context [digit_value ?c] =>
        let v := eval vm_compute in (digit_value c) in
        change (digit_value c) with v
    end;
    cbv iota beta;
    match goal with
    | |- context [(?k <? 10)%Z] => change (k <? 10)%Z with true
    end;
    cbv iota; cbn [default];
    first [ exact IHd | apply digits_from_positive ].
Qed.

Lemma digits_of_uint d :
  d <> Decimal.Nil ->
  digits_prefix 10 None (NilEmpty.string_of_uint d) = Some (Z.of_N (Pos.of_uint d)).
Proof.
  intros Hd. rewrite <- digits_from_zero. destruct d; [contradiction|..]; reflexivity.
Qed.

Lemma parseInt_of_uint d :
  d <> Decimal.Nil ->
  parseInt (NilEmpty.string_of_uint d) = JInt (Z.of_N (Pos.of_uint d)).
Proof.
  intros Hd. unfold parseInt.
  assert (Hhead : exists c rest, NilEmpty.string_of_uint d = String c rest
                  /\ (nat_of_ascii c <? 128)%nat && negb (is_ascii_space c) = true
                  /\ strip_sign (String c rest) = (1%Z, String c rest)
                  /\ strip_hex (String c rest) = (10%Z, String c rest)).
  { destruct d; [contradiction|..]; do 2 eexists; (split; [reflexivity|]);
      repeat split; destruct d; reflexivity. }
  destruct Hhead as (c & rest & Heq & Hplain & Hsign & Hhex).
  rewrite Heq, trim_start_plain, Hsign, Hhex by exact Hplain.
  rewrite <- Heq, digits_of_uint by exact Hd.
  f_equal. lia.
Qed.

Lemma parseInt_decimal z : parseInt (Z_to_string z) = JInt z.
Proof.
  unfold Z_to_string. destruct z as [|p|p]; [reflexivity|..];
    cbn [Z.to_int NilZero.string_of_int];
    pose proof (Unsigned.to_uint_nonnil p) as Hnil;
    pose proof (Unsigned.of_to p) as Hval;
    unfold NilZero.string_of_uint;
    destruct (Pos.to_uint p) eqn:Hd; try contradiction; rewrite <- Hd in *.
  all: try (rewrite parseInt_of_uint by exact Hnil; rewrite Hval; reflexivity).
  all: unfold parseInt;
    rewrite trim_start_plain by reflexivity; cbn [strip_sign];
    assert (Hhex : strip_hex (NilEmpty.string_of_uint (Pos.to_uint p))
                   = (10%Z, NilEmpty.string_of_uint (Pos.to_uint p)))
      by (rewrite Hd; cbn [NilEmpty.string_of_uint];
          match goal with |- context [NilEmpty.string_of_uint ?u] => destruct u end;
          reflexivity);
    rewrite Hhex, digits_of_uint, Hval by exact Hnil; reflexivity.
Qed.

Lemma Z_to_string_nonempty z : Z_to_string z <> "".
Proof.
  intros Hempty. pose proof (parseInt_decimal z) as H. rewrite Hempty in H. discriminate H.
Qed.

End DecimalPort.

(** ** The port, from the text of SSH_PORT *)

Section DecimalPrefix.










End DecimalPrefix.



(** X3: an SSH_PORT that is the decimal text of an integer (within the
    range in which numbers are exact) becomes the port as that integer,
    whatever its value: zero, negative numbers and numbers above 65535 are
    accepted, no range check is made. *)
Theorem getSSHConfig_decimal_port_unchecked env fs cfg z :
  (Z.abs z <= 9007199254740991)%Z ->
  Config.getSSHConfig env fs = Return cfg ->
  env !! "SSH_PORT" = Some (Z_to_string z) ->
  Config.port cfg = JInt z.
Proof.
  intros _ Hcfg Hport. rewrite (getSSHConfig_port _ _ _ Hcfg).
  rewrite (env_or_set _ _ _ _ Hport) by apply Z_to_string_nonempty.
  apply parseInt_decimal.
Qed.

Lemma getSSHConfig_decimal_port_unchecked_witness :
  Config.port (Config.mkConfig "10.0.0.5" (JInt 70000) "root" (Some "secret") None None)
  = JInt 70000
  /\ Config.port (Config.mkConfig "10.0.0.5" (JInt (-1)) "root" (Some "secret") None None)
     = JInt (-1).
Proof.
  split.
  - refine (getSSHConfig_decimal_port_unchecked (<["SSH_PORT" := "70000"]> env_password)
              no_files _ 70000 _ _ _); [discriminate | vm_compute; reflexivity..].
  - refine (getSSHConfig_decimal_port_unchecked (<["SSH_PORT" := "-1"]> env_password)
              no_files _ (-1) _ _ _); [discriminate | vm_compute; reflexivity..].
Defined.

(** ** The connection cache, over every interleaving *)

Section CacheFacts.
Import Session.

Variable fs : string -> Thrown string.

Lemma run_keeps_cached tr s key :
  is_Some (connections s !! key) -> is_Some (connections (run fs tr s) !! key).
Proof.
  revert s. induction tr as [|ev tr IH]; intros s Hc; [exact Hc|].
  change (run fs (ev :: tr) s) with (run fs tr (step fs s ev)).
  apply IH, step_keeps_cached, Hc.
Qed.

Lemma step_clients_opened s ev : clients_opened s -> clients_opened (step fs s ev).
Proof.
  intros [Hconn Hwait]. destruct ev as [f env|f|f e]; cbn [step].
  - destruct (Config.getSSHConfig env fs) as [config|e]; [|split; assumption].
    destruct (connections s !! connectionKey config) eqn:Hk; [split; assumption|].
    split; cbn [connections waiting opened].
    + intros key c Hc. destruct (Hconn key c Hc) as (cfg & Ho & Hkey).
      exists cfg. split; [|exact Hkey].
      rewrite lookup_app_l by (apply lookup_lt_Some in Ho; exact Ho). exact Ho.
    + intros f' key c Hw. destruct (decide (f = f')) as [->|Hne].
      * rewrite lookup_insert_eq in Hw. injection Hw as <- <-.
        exists config. split; [|reflexivity].
        rewrite lookup_app_r by lia. rewrite Nat.sub_diag. reflexivity.
      * rewrite lookup_insert_ne in Hw by exact Hne.
        destruct (Hwait f' key c Hw) as (cfg & Ho & Hkey).
        exists cfg. split; [|exact Hkey].
        rewrite lookup_app_l by (apply lookup_lt_Some in Ho; exact Ho). exact Ho.
  - destruct (waiting s !! f) as [[k0 c0]|] eqn:Hw; [|split; assumption].
    split; cbn [connections waiting opened].
    + intros key c Hc. destruct (decide (k0 = key)) as [->|Hne].
      * rewrite lookup_insert_eq in Hc. injection Hc as <-. eapply Hwait, Hw.
      * rewrite lookup_insert_ne in Hc by exact Hne. apply Hconn, Hc.
    + intros f' key c Hw'. apply lookup_delete_Some in Hw' as [_ Hw'].
      eapply Hwait, Hw'.
  - destruct (waiting s !! f) as [w|] eqn:Hw; [|split; assumption].
    split; cbn [connections waiting opened]; [exact Hconn|].
    intros f' key c Hw'. apply lookup_delete_Some in Hw' as [_ Hw'].
    eapply Hwait, Hw'.
Qed.

Lemma run_clients_opened tr s : clients_opened s -> clients_opened (run fs tr s).
Proof.
  revert s. induction tr as [|ev tr IH]; intros s Hs; [exact Hs|].
  change (run fs (ev :: tr) s) with (run fs tr (step fs s ev)).
  apply IH, step_clients_opened, Hs.
Qed.

Lemma init_clients_opened : clients_opened init.
Proof. split; intros *; cbn; rewrite lookup_empty; discriminate. Qed.

End CacheFacts.

(** X4: once a key has a session in the connections map, it keeps one
    through every later interleaving of calls, ready and error events, and
    createSSHConnection is not called again for that key. *)
Theorem cached_session_is_never_dropped fs trace s key :
  is_Some (Session.connections s !! key) ->
  is_Some (Session.connections (Session.run fs trace s) !! key)
  /\ Session.opens_for key (Session.run fs trace s) = Session.opens_for key s.
Proof.
  intros Hc. split; [apply run_keeps_cached, Hc | apply cached_stops_opens, Hc].
Qed.

(** X5: on every run from the empty map, a client found in the connections
    map under a key was created by a createSSHConnection call whose
    configuration has that key. *)
Theorem cached_client_was_opened_for_its_key fs trace key c :
  Session.connections (Session.run fs trace Session.init) !! key = Some c ->
  exists cfg,
    Session.opened (Session.run fs trace Session.init) !! c = Some (c, cfg)
    /\ Session.connectionKey cfg = key.
Proof.
  intros Hc. eapply (proj1 (run_clients_opened fs trace _ init_clients_opened)), Hc.
Qed.

(** X6: the key does not cover the credentials.  After a session has been
    opened and stored for one configuration, a call whose configuration has
    the same host, port and username, with whatever credentials, is served
    that session and opens nothing. *)
Theorem credentials_are_not_part_of_the_key fs env1 env2 cfg1 cfg2 f1 f2 s :
  Config.getSSHConfig env1 fs = Return cfg1 ->
  Config.getSSHConfig env2 fs = Return cfg2 ->
  Config.host cfg1 = Config.host cfg2 ->
  Config.port cfg1 = Config.port cfg2 ->
  Config.username cfg1 = Config.username cfg2 ->
  Session.connections s !! Session.connectionKey cfg1 = None ->
  let s' := Session.run fs [Session.Call f1 env1; Session.Ready f1; Session.Call f2 env2] s in
  Session.opened s' = (Session.opened s ++ [(length (Session.opened s), cfg1)])%list
  /\ Session.returned s' !! f2 = Some (Return (length (Session.opened s))).
Proof.
  intros H1 H2 Hh Hp Hu Hmiss.
  assert (Hkey : Session.connectionKey cfg2 = Session.connectionKey cfg1).
  { unfold Session.connectionKey. rewrite Hh, Hp, Hu. reflexivity. }
  cbn [Session.run fold_left Session.step].
  rewrite H1, Hmiss. cbn [Session.waiting]. rewrite lookup_insert_eq.
  rewrite H2. cbn [Session.connections]. rewrite Hkey, lookup_insert_eq.
  cbn [Session.opened Session.returned]. rewrite lookup_insert_eq. split; reflexivity.
Qed.

(** ** Promise.all, the converse direction *)

Section AllSound.
Context {A : Type}.
Implicit Types (outcomes : list (Settled A)) (slots : list (option A)).

Lemma slots_sound_full outcomes vs :
  slots_sound outcomes (map Some vs) -> outcomes = map Fulfilled vs.
Proof.
  intros [Hlen Hall]. rewrite length_map in Hlen. apply list_eq. intros i.
  rewrite list_lookup_fmap. destruct (vs !! i) as [v|] eqn:Hv; cbn.
  - apply Hall. rewrite list_lookup_fmap, Hv. reflexivity.
  - apply lookup_ge_None. rewrite <- Hlen. apply lookup_ge_None, Hv.
Qed.

Lemma all_loop_sound outcomes slots order vs :
  slots_sound outcomes slots ->
  all_loop outcomes slots order = Fulfilled vs -> outcomes = map Fulfilled vs.
Proof.
  revert slots. induction order as [|i order IH]; intros slots Hs; cbn [all_loop];
    [discriminate|].
  destruct (outcomes !! i) as [[v|e| |e]|] eqn:Hi; try discriminate; try (apply IH, Hs).
  assert (Hs' : slots_sound outcomes (<[i := Some v]> slots)).
  { destruct Hs as [Hlen Hall]. split; [rewrite length_insert; exact Hlen|].
    intros j w Hj. destruct (decide (j = i)) as [->|Hne].
    - rewrite list_lookup_insert_eq in Hj
        by (rewrite Hlen; apply lookup_lt_Some in Hi; exact Hi).
      injection Hj as <-. exact Hi.
    - rewrite list_lookup_insert_ne in Hj by congruence. apply Hall, Hj. }
  destruct (collect (<[i := Some v]> slots)) as [ws|] eqn:Hws; [|apply IH, Hs'].
  intros [= <-]. apply collect_Some in Hws. rewrite Hws in Hs'.
  apply slots_sound_full, Hs'.
Qed.

Lemma all_loop_rejected outcomes slots order e :
  all_loop outcomes slots order = Rejected e ->
  exists i, i ∈ order /\ outcomes !! i = Some (Rejected e).
Proof.
  revert slots. induction order as [|i order IH]; intros slots; cbn [all_loop];
    [discriminate|].
  destruct (outcomes !! i) as [[v|e'| |e']|] eqn:Hi; try discriminate.
  - destruct (collect _); [discriminate|]. intros H.
    destruct (IH _ H) as (j & Hj & Ho). exists j. split; [right; exact Hj | exact Ho].
  - intros [= ->]. exists i. split; [left | exact Hi].
  - intros H. destruct (IH _ H) as (j & Hj & Ho). exists j. split; [right; exact Hj | exact Ho].
  - intros H. destruct (IH _ H) as (j & Hj & Ho). exists j. split; [right; exact Hj | exact Ho].
Qed.

End AllSound.

Lemma all_fulfilled_inv {A} (outcomes : list (Settled A)) (order : list nat) vs :
  Promise.all outcomes order = Fulfilled vs -> outcomes = map Fulfilled vs.
Proof.
  unfold Promise.all. destruct outcomes as [|o outcomes].
  - intros [= <-]. reflexivity.
  - apply all_loop_sound. split; [apply length_replicate|].
    intros i v Hv. apply lookup_replicate in Hv as [Hv _]. discriminate Hv.
Qed.

Lemma all_rejected_inv {A} (outcomes : list (Settled A)) (order : list nat) e :
  Promise.all outcomes order = Rejected e ->
  exists i, i ∈ order /\ outcomes !! i = Some (Rejected e).
Proof.
  unfold Promise.all. destruct outcomes as [|o outcomes]; [discriminate|].
  apply all_loop_rejected.
Qed.

(** X7: [Promise.all] as used by system_monitor is fulfilled only if every
    input promise is fulfilled, with the values in input order; it is
    rejected only with the error of an input promise that was rejected. *)
Theorem promise_all_settles_soundly {A} (outcomes : list (Settled A)) (order : list nat) :
  (forall vs, Promise.all outcomes order = Fulfilled vs -> outcomes = map Fulfilled vs)
  /\ (forall e, Promise.all outcomes order = Rejected e ->
        exists i, i ∈ order /\ outcomes !! i = Some (Rejected e)).
Proof.
  split; [intros vs; apply all_fulfilled_inv | intros e; apply all_rejected_inv].
Qed.

(** ** The tool handler, tool by tool *)

(** Decide the tests of the outer [switch] once the tool name is known. *)
Ltac decide_tool :=
  repeat match goal with
    | |- context [String.eqb ?a ?b] =>
        let v := eval vm_compute in (String.eqb a b) in
        change (String.eqb a b) with v
    end;
  cbv iota.

Ltac enter_tool Hname :=
  unfold Tool.callTool, Tool.try_catch, Tool.dispatch; rewrite Hname; decide_tool.

Section ToolByTool.
Import Tool.

Variable remote_exec : string -> Settled Exec.ExecResult.
Variable remote_read : string -> Settled string.
Variable remote_upload : string -> string -> Settled unit.
Variable remote_download : string -> string -> Settled unit.
Variable completion : list nat.

(** The handler over the remote behaviour fixed above. *)
Local Abbreviation handle :=
  (callTool remote_exec remote_read remote_upload remote_download completion).

Lemma str_falsy_false s : s <> "" -> str_falsy s = false.
Proof. unfold str_falsy. destruct (String.eqb_spec s ""); [contradiction | reflexivity]. Qed.



(** X10: list_directory makes no check of its own.  For every path
    argument that [String] converts, it runs exactly one ls command; a path
    that is missing or falsy is replaced by ".", and when ls completes the
    response shows standard output only, not flagged as an error, whatever
    the exit code and standard error. *)
Theorem list_directory_never_validates request log :
  name request = "list_directory" ->
  plain (arg request "path") = true ->
  let dirPath := toString (or_else (arg request "path") (JStr ".")) in
  let command :=
    (if truthy (arg request "detailed") then "ls -la " else "ls ")
    +:+ JSON_stringify dirPath in
  snd (handle request log) = (log ++ [ExecuteRemoteCommand command])%list
  /\ (truthy (arg request "path") = false -> dirPath = ".")
  /\ (forall result, remote_exec command = Fulfilled result ->
        fst (handle request log)
        = Fulfilled (mkResponse ("目录: " +:+ dirPath +:+ "

" +:+ Exec.stdout result) false)).
Proof.
  intros Hname _ dirPath command.
  assert (Hcommand : list_directory_command dirPath (truthy (arg request "detailed"))
                     = command).
  { unfold list_directory_command, command. destruct (truthy _); reflexivity. }
  split; [|split].
  - enter_tool Hname. fold dirPath. rewrite Hcommand.
    unfold bind, executeRemoteCommand. destruct (remote_exec command); reflexivity.
  - intros Hfalsy. unfold dirPath, or_else. rewrite Hfalsy. reflexivity.
  - intros result Hexec. enter_tool Hname. fold dirPath. rewrite Hcommand.
    unfold bind, executeRemoteCommand. rewrite Hexec. reflexivity.
Qed.

(** X11: a tool name that is not among those the ListTools handler
    announces is answered with the error-flagged response "Unknown tool"
    and no remote-operation function is called. *)
Theorem unlisted_tool_is_refused request log :
  name request ∉ map Catalogue.tool_name Catalogue.listTools ->
  handle request log
  = (Fulfilled (mkResponse ("错误: Error: Unknown tool: " +:+ name request) true), log).
Proof.
  intros Hnot. unfold callTool, try_catch, dispatch.
  repeat match goal with
    | |- context [String.eqb (name request) ?lit] =>
        let H := fresh "H" in
        destruct (String.eqb_spec (name request) lit) as [H|_];
          [exfalso; apply Hnot; rewrite H; cbn; in_list|]
    end.
  reflexivity.
Qed.


(** Only the empty string and arrays can print as the empty text. *)
Lemma toString_empty v : toString v = "" -> v = JStr "" \/ exists items, v = JArr items.
Proof.
  destruct v as [| |[]|z|s|items|fields]; cbn [toString]; try discriminate.
  - intros H. exfalso. exact (Z_to_string_nonempty z H).
  - intros ->. left. reflexivity.
  - intros _. right. eexists. reflexivity.
Qed.

(** X13: read_file whose path argument is absent, null, a boolean, a
    number that is a safe integer, or an object without a property of its
    own named toString, is not refused: the file whose name is the printed
    form of the argument is read. *)
Theorem read_file_reads_printed_argument request log :
  name request = "read_file" ->
  plain (arg request "path") = true ->
  (forall s, arg request "path" <> JStr s) ->
  (forall items, arg request "path" <> JArr items) ->
  snd (handle request log)
  = (log ++ [GetRemoteFileContent (toString (arg request "path"))])%list
  /\ (arg request "path" = JUndefined ->
      snd (handle request log) = (log ++ [GetRemoteFileContent "undefined"])%list)
  /\ (arg request "path" = JNull ->
      snd (handle request log) = (log ++ [GetRemoteFileContent "null"])%list).
Proof.
  intros Hname _ Hstr Harr.
  assert (Hcalls : snd (handle request log)
                   = (log ++ [GetRemoteFileContent (toString (arg request "path"))])%list).
  { enter_tool Hname. rewrite str_falsy_false.
    - unfold bind, getRemoteFileContent. destruct (remote_read _); reflexivity.
    - intros Hempty. apply toString_empty in Hempty as [H|[items H]];
        [exact (Hstr _ H) | exact (Harr _ H)]. }
  split; [exact Hcalls|]. split; intros Hv; rewrite Hcalls, Hv; reflexivity.
Qed.

Lemma monitor_commands_cases monitorType :
  (monitorType = "cpu" -> monitor_commands monitorType = ["top -bn1 | head -20"])
  /\ (monitorType = "memory" ->
      monitor_commands monitorType = ["free -h"; "cat /proc/meminfo | head -10"])
  /\ (monitorType = "disk" -> monitor_commands monitorType = ["df -h"; "lsblk"])
  /\ (monitorType = "network" -> monitor_commands monitorType = ["netstat -tuln"; "ss -tuln"])
  /\ (monitorType ∉ ["cpu"; "memory"; "disk"; "network"] ->
      monitor_commands monitorType
      = ["uptime"; "free -h"; "df -h"; "top -bn1 | head -10"; "netstat -tuln | head -10"]).
Proof.
  split; [|split; [|split; [|split]]]; try (intros ->; reflexivity).
  intros Hout. unfold monitor_commands.
  destruct (String.eqb_spec monitorType "cpu") as [->|_];
    [exfalso; apply Hout; in_list|].
  destruct (String.eqb_spec monitorType "memory") as [->|_];
    [exfalso; apply Hout; in_list|].
  destruct (String.eqb_spec monitorType "disk") as [->|_];
    [exfalso; apply Hout; in_list|].
  destruct (String.eqb_spec monitorType "network") as [->|_];
    [exfalso; apply Hout; in_list|].
  reflexivity.
Qed.

Lemma join_blocks commands results :
  length results = length commands ->
  join nl (zip_with labelled commands results) = blocks commands results.
Proof.
  revert results.
  induction commands as [|command commands IH]; intros [|result results] Hlen;
    try discriminate Hlen; [reflexivity|].
  injection Hlen as Hlen.
  destruct commands as [|command' commands], results as [|result' results];
    try discriminate Hlen.
  - cbv [zip_with join blocks labelled nl newline].
    repeat rewrite append_assoc. reflexivity.
  - specialize (IH (result' :: results) Hlen).
    cbn [zip_with] in IH. cbn [zip_with].
    change (join nl (labelled command result
                     :: labelled command' result' :: zip_with labelled commands results))
      with (labelled command result +:+ nl
            +:+ join nl (labelled command' result' :: zip_with labelled commands results)).
    rewrite IH.
    change (blocks (command :: command' :: commands) (result :: result' :: results))
      with ("=== " +:+ command +:+ " ===
" +:+ Exec.stdout result +:+ "
" +:+ "
" +:+ blocks (command' :: commands) (result' :: results)).
    cbv [labelled nl newline]. repeat rewrite append_assoc. reflexivity.
Qed.

Lemma monitor_text_blocks monitorType commands results :
  length results = length commands ->
  monitor_text monitorType commands results
  = "系统监控 (" +:+ monitorType +:+ "):

" +:+ blocks commands results.
Proof.
  intros Hlen. unfold monitor_text. rewrite (join_blocks _ _ Hlen). reflexivity.
Qed.

(** X14: for a type argument that [String] converts, whenever
    system_monitor answers, it has called executeRemoteCommand for every
    command of the list; an answer flagged as an error carries the error of
    one of these commands that was rejected, and an answer not flagged means
    every command was fulfilled and holds their labelled outputs in list
    order. *)
Theorem system_monitor_answers_soundly request log response log' :
  name request = "system_monitor" ->
  plain (arg request "type") = true ->
  handle request log = (Fulfilled response, log') ->
  let monitorType := toString (or_else (arg request "type") (JStr "all")) in
  let commands := monitor_commands monitorType in
  log' = (log ++ map ExecuteRemoteCommand commands)%list
  /\ ((monitorType = "cpu" -> commands = ["top -bn1 | head -20"])
      /\ (monitorType = "memory" -> commands = ["free -h"; "cat /proc/meminfo | head -10"])
      /\ (monitorType = "disk" -> commands = ["df -h"; "lsblk"])
      /\ (monitorType = "network" -> commands = ["netstat -tuln"; "ss -tuln"])
      /\ (monitorType ∉ ["cpu"; "memory"; "disk"; "network"] ->
          commands = ["uptime"; "free -h"; "df -h"; "top -bn1 | head -10";
                      "netstat -tuln | head -10"]))
  /\ if isError response
     then exists i command e,
            commands !! i = Some command /\ remote_exec command = Rejected e
            /\ text response = "错误: " +:+ error_toString e
     else exists results,
            map remote_exec commands = map Fulfilled results
            /\ text response = "系统监控 (" +:+ monitorType +:+ "):

" +:+ blocks commands results.
Proof.
  intros Hname _ Hrun monitorType commands.
  assert (Hshape :
    handle request log
    = (match Promise.all (map remote_exec commands) completion with
       | Fulfilled results =>
           Fulfilled (mkResponse ("系统监控 (" +:+ monitorType +:+ "):" +:+ nl +:+ nl
                                  +:+ monitor_output commands results) false)
       | Rejected e => Fulfilled (mkResponse ("错误: " +:+ error_toString e) true)
       | Pending => Pending
       | Uncaught e => Uncaught e
       end,
       (log ++ map ExecuteRemoteCommand commands)%list)).
  { enter_tool Hname. fold monitorType. fold commands. unfold bind, executeAll.
    destruct (Promise.all _ _); reflexivity. }
  rewrite Hshape in Hrun. clear Hshape.
  destruct (Promise.all (map remote_exec commands) completion) as [results|e| |e] eqn:Hall;
    try discriminate Hrun; injection Hrun as <- <-;
    (split; [reflexivity|]);
    (split; [exact (monitor_commands_cases monitorType)|]); cbn [isError text].
  - apply all_fulfilled_inv in Hall. exists results. split; [exact Hall|].
    assert (Hlen : length results = length commands).
    { rewrite <- (length_map Fulfilled results), <- Hall, length_map. reflexivity. }
    rewrite <- (monitor_text_blocks _ _ _ Hlen).
    unfold monitor_output, monitor_text. rewrite imap_labels by exact Hlen. reflexivity.
  - apply all_rejected_inv in Hall as (i & _ & Hi).
    rewrite list_lookup_fmap in Hi.
    destruct (commands !! i) as [command|] eqn:Hc; [|discriminate Hi].
    injection Hi as Hi. exists i, command, e. repeat split; assumption.
Qed.

End ToolByTool.

(** ** File transfers and file reads, end to end *)

Section Transfers.
Import Tool.

Variable remote_exec : string -> Settled Exec.ExecResult.
Variable remote_read : string -> Settled string.
Variable remote_upload : string -> string -> Settled unit.
Variable remote_download : string -> string -> Settled unit.
Variable completion : list nat.

Lemma pipe_skips_undecided pre rest :
  undecided pre = true -> Transfer.pipe (pre ++ rest) = Transfer.pipe rest.
Proof.
  induction pre as [|ev pre IH]; intros Hq; [reflexivity|].
  cbn [undecided forallb] in Hq. apply andb_prop in Hq as [Hev Hq].
  destruct ev; try discriminate Hev. cbn [app Transfer.pipe]. apply IH, Hq.
Qed.




End Transfers.

(** ** The resource handler *)

Section ResourceFacts.
Import Tool Resource.

Variable McpError : ErrorCode -> string -> JsError.
Variable url_pathname : string -> Thrown string.
Variable remote_exec : string -> Settled Exec.ExecResult.
Variable now : string.

(** The handler over the surroundings fixed above. *)
Local Abbreviation read := (readResource McpError url_pathname remote_exec now).

Lemma fetch_served path command key log :
  (path, command, key) ∈ served ->
  fetch McpError remote_exec now path log
  = (match remote_exec command with
     | Fulfilled result => Fulfilled [(key, Exec.stdout result); ("timestamp", now)]
     | Rejected e => Rejected e
     | Pending => Pending
     | Uncaught e => Uncaught e
     end,
     (log ++ [ExecuteRemoteCommand command])%list).
Proof.
  unfold served. intros Hin.
  repeat (apply elem_of_cons in Hin as [[= -> -> ->]|Hin]); [..|inversion Hin];
    unfold fetch; decide_tool; unfold bind, executeRemoteCommand;
    destruct (remote_exec _); reflexivity.
Qed.

Lemma fetch_unserved path log :
  path ∉ served_paths ->
  fetch McpError remote_exec now path log
  = (Rejected (McpError InvalidRequest ("Unknown resource: " +:+ path)), log).
Proof.
  intros Hnot. unfold fetch.
  repeat match goal with
    | |- context [String.eqb path ?lit] =>
        let H := fresh "H" in
        destruct (String.eqb_spec path lit) as [H|_];
          [exfalso; apply Hnot; rewrite H; cbn; in_list|]
    end.
  reflexivity.
Qed.

Lemma served_or_not path :
  path ∉ served_paths \/ exists command key, (path, command, key) ∈ served.
Proof.
  destruct (decide (path ∈ served_paths)) as [Hin|Hnot]; [right | left; exact Hnot].
  unfold served_paths in Hin. apply list_elem_of_fmap in Hin as ([[p command] key] & -> & Hin).
  exists command, key. exact Hin.
Qed.

Lemma read_unserved request_uri log path :
  url_pathname request_uri = Return path -> path ∉ served_paths ->
  read request_uri log
  = (Rejected
       (McpError InternalError
          ("Failed to fetch resource: "
           +:+ error_toString (McpError InvalidRequest ("Unknown resource: " +:+ path)))),
     log).
Proof.
  intros Hurl Hnot. unfold readResource, try_catch, bind.
  rewrite Hurl, (fetch_unserved _ _ Hnot). reflexivity.
Qed.

(** X17: for each of the four resource paths the handler serves, it runs
    the one command of that path and, when the command completes, returns
    one content of type application/json whose text is an object of two
    lines, indented by two spaces: standard output, as a JSON string, under
    the property of that path, and the timestamp; exit code and standard
    error play no part. *)
Theorem served_resource_payload request_uri log path command key result :
  url_pathname request_uri = Return path ->
  (path, command, key) ∈ served ->
  remote_exec command = Fulfilled result ->
  read request_uri log
  = (Fulfilled
       [mkContents request_uri "application/json"
          ("{
  " +:+ String dquote (key +:+ String dquote (": " +:+ JSON_stringify (Exec.stdout result)
           +:+ ",
  " +:+ String dquote ("timestamp" +:+ String dquote (": " +:+ JSON_stringify now +:+ "
}")))))],
     (log ++ [ExecuteRemoteCommand command])%list).
Proof.
  intros Hurl Hin Hexec. unfold readResource, try_catch, bind.
  rewrite Hurl, (fetch_served _ _ _ _ Hin), Hexec. unfold ret. do 4 f_equal.
  unfold served in Hin.
  repeat (apply elem_of_cons in Hin as [[= -> -> ->]|Hin]); [..|inversion Hin];
    cbv [stringify_object map join fst snd nl newline];
    unfold JSON_stringify at 1 3; cbv [json_escape json_escape_char];
    repeat rewrite append_assoc; reflexivity.
Qed.

(** X18: once the URL has parsed, the ReadResource handler rejects with an
    InternalError [McpError] in every failure: for a path it does not serve
    (the InvalidRequest error is wrapped and no command is run) and for a
    command whose promise is rejected. *)
Theorem resource_failures_are_internal_errors request_uri log path :
  url_pathname request_uri = Return path ->
  (path ∉ served_paths ->
     read request_uri log
     = (Rejected
          (McpError InternalError
             ("Failed to fetch resource: "
              +:+ error_toString (McpError InvalidRequest ("Unknown resource: " +:+ path)))),
        log))
  /\ (forall command key e,
        (path, command, key) ∈ served -> remote_exec command = Rejected e ->
        read request_uri log
        = (Rejected (McpError InternalError
                       ("Failed to fetch resource: " +:+ error_toString e)),
           (log ++ [ExecuteRemoteCommand command])%list))
  /\ (forall e log', read request_uri log = (Rejected e, log') ->
        exists message, e = McpError InternalError message).
Proof.
  intros Hurl. split; [apply read_unserved, Hurl|].
  unfold readResource, try_catch, bind. rewrite Hurl. split.
  - intros command key e Hin Hexec. rewrite (fetch_served _ _ _ _ Hin), Hexec. reflexivity.
  - intros e log'. destruct (served_or_not path) as [Hnot|(command & key & Hin)].
    + rewrite (fetch_unserved _ _ Hnot). intros [= <- _]. eexists. reflexivity.
    + rewrite (fetch_served _ _ _ _ Hin).
      destruct (remote_exec command); cbn; (intros [= <- _] || discriminate).
      eexists. reflexivity.
Qed.

(** X19: with a URL parser that agrees with the standard one on
    [scheme://host/path], none of the four URIs the ListResources handler
    announces can be read: [system] is taken as the host, the pathname is
    [/info], [/processes], [/disk] or [/memory], and the handler rejects it
    as an unknown resource without running a command. *)
Theorem listed_resources_are_not_served log resource :
  (forall text path, Url.pathname text = Some path -> url_pathname text = Return path) ->
  resource ∈ Catalogue.listResources ->
  exists path,
    url_pathname (Catalogue.res_uri resource) = Return path
    /\ (path ∉ served_paths)
    /\ read (Catalogue.res_uri resource) log
       = (Rejected
            (McpError InternalError
               ("Failed to fetch resource: "
                +:+ error_toString
                      (McpError InvalidRequest ("Unknown resource: " +:+ path)))),
          log).
Proof.
  intros Hurl Hin. unfold Catalogue.listResources in Hin.
  assert (Hpath : exists path, Url.pathname (Catalogue.res_uri resource) = Some path
                               /\ path ∉ served_paths).
  { repeat (apply elem_of_cons in Hin as [->|Hin]); [..|inversion Hin];
      eexists; (split; [vm_compute; reflexivity|]);
      intros H; unfold served_paths, served in H; cbn in H;
      repeat (apply elem_of_cons in H as [Heq|H]; [discriminate Heq|]); inversion H. }
  destruct Hpath as (path & Hp & Hnot). exists path.
  pose proof (Hurl _ _ Hp) as Hret. split; [exact Hret|]. split; [exact Hnot|].
  apply read_unserved; assumption.
Qed.

End ResourceFacts.

(** ** The commands built from arguments *)

Section Quoting.





(** Inside double quotes, the escaped form of inert text is read through
    without leaving the quotes and without a substitution. *)
Lemma escaped_char_is_read_through c rest :
  negb (Ascii.eqb c "$" || Ascii.eqb c "`") = true ->
  Shell.runs_substitution Shell.InDouble (json_escape_char c +:+ rest)
  = Shell.runs_substitution Shell.InDouble rest.
Proof.
  intros Hc. destruct c as [[] [] [] [] [] [] [] []]; try discriminate Hc; reflexivity.
Qed.

Lemma escaped_is_read_through s rest :
  shell_inert s = true ->
  Shell.runs_substitution Shell.InDouble (json_escape s +:+ rest)
  = Shell.runs_substitution Shell.InDouble rest.
Proof.
  induction s as [|c s IH]; intros Hs; [reflexivity|].
  cbn [shell_inert Url.all_chars] in Hs. apply andb_prop in Hs as [Hc Hs].
  cbn [json_escape]. rewrite append_assoc, escaped_char_is_read_through by exact Hc.
  apply IH, Hs.
Qed.

Lemma quoted_is_read_through s rest :
  shell_inert s = true ->
  Shell.runs_substitution Shell.Unquoted (JSON_stringify s +:+ rest)
  = Shell.runs_substitution Shell.Unquoted rest.
Proof.
  intros Hs. unfold JSON_stringify. rewrite append_cons, append_assoc.
  change (Shell.runs_substitution Shell.Unquoted
            (String dquote (json_escape s +:+ String dquote "" +:+ rest)))
    with (Shell.runs_substitution Shell.InDouble
            (json_escape s +:+ String dquote "" +:+ rest)).
  rewrite escaped_is_read_through by exact Hs. reflexivity.
Qed.

Lemma quoted_alone s :
  shell_inert s = true ->
  Shell.runs_substitution Shell.Unquoted (JSON_stringify s) = false.
Proof.
  intros Hs. rewrite <- (append_empty_r (JSON_stringify s)).
  rewrite quoted_is_read_through by exact Hs. reflexivity.
Qed.

End Quoting.


(** X21: when the path holds no dollar sign and no backquote, the ls
    command of list_directory makes the shell run no command substitution,
    and when the content holds none either, neither does the echo command
    of write_file. *)
Theorem inert_arguments_run_no_substitution filePath content detailed :
  shell_inert filePath = true ->
  (shell_inert content = true ->
     Shell.runs_substitution Shell.Unquoted (Tool.write_file_command filePath content)
     = false)
  /\ Shell.runs_substitution Shell.Unquoted (Tool.list_directory_command filePath detailed)
     = false.
Proof.
  intros Hp. split.
  - intros Hc. unfold Tool.write_file_command.
    change ("echo " +:+ JSON_stringify content +:+ " > " +:+ JSON_stringify filePath)
      with ("echo " +:+ (JSON_stringify content +:+ " > " +:+ JSON_stringify filePath)).
    change (Shell.runs_substitution Shell.Unquoted
              ("echo " +:+ (JSON_stringify content +:+ " > " +:+ JSON_stringify filePath)))
      with (Shell.runs_substitution Shell.Unquoted
              (JSON_stringify content +:+ " > " +:+ JSON_stringify filePath)).
    rewrite quoted_is_read_through by exact Hc.
    change (Shell.runs_substitution Shell.Unquoted (" > " +:+ JSON_stringify filePath))
      with (Shell.runs_substitution Shell.Unquoted (JSON_stringify filePath)).
    apply quoted_alone, Hp.
  - unfold Tool.list_directory_command. destruct detailed.
    + change (Shell.runs_substitution Shell.Unquoted ("ls -la " +:+ JSON_stringify filePath))
        with (Shell.runs_substitution Shell.Unquoted (JSON_stringify filePath)).
      apply quoted_alone, Hp.
    + change (Shell.runs_substitution Shell.Unquoted ("ls " +:+ JSON_stringify filePath))
        with (Shell.runs_substitution Shell.Unquoted (JSON_stringify filePath)).
      apply quoted_alone, Hp.
Qed.

(** ** The properties above at sample inputs *)

Lemma cached_session_is_never_dropped_witness :
  is_Some (Session.connections
             (Session.run no_files
                [Session.Call 2 env_password; Session.Failed 2 enoent;
                 Session.Call 3 env_other_password; Session.Ready 3]
                cached_state) !! "10.0.0.5:22:root")
  /\ Session.opens_for "10.0.0.5:22:root"
       (Session.run no_files
          [Session.Call 2 env_password; Session.Failed 2 enoent;
           Session.Call 3 env_other_password; Session.Ready 3]
          cached_state)
     = Session.opens_for "10.0.0.5:22:root" cached_state.
Proof.
  refine (cached_session_is_never_dropped no_files _ cached_state "10.0.0.5:22:root" _).
  exists 0. vm_compute. reflexivity.
Defined.

Lemma cached_client_was_opened_for_its_key_witness :
  exists cfg,
    Session.opened
      (Session.run no_files [Session.Call 1 env_password; Session.Ready 1] Session.init)
      !! 0 = Some (0, cfg)
    /\ Session.connectionKey cfg = "10.0.0.5:22:root".
Proof.
  refine (cached_client_was_opened_for_its_key no_files
            [Session.Call 1 env_password; Session.Ready 1] "10.0.0.5:22:root" 0 _).
  vm_compute. reflexivity.
Defined.

Lemma credentials_are_not_part_of_the_key_witness :
  Session.opened
    (Session.run no_files
       [Session.Call 1 env_password; Session.Ready 1; Session.Call 2 env_other_password]
       Session.init)
  = [(0, cfg_password)]
  /\ Session.returned
       (Session.run no_files
          [Session.Call 1 env_password; Session.Ready 1; Session.Call 2 env_other_password]
          Session.init) !! 2
     = Some (Return 0).
Proof.
  refine (credentials_are_not_part_of_the_key no_files env_password env_other_password
            cfg_password cfg_other_password 1 2 Session.init _ _ _ _ _ _);
    vm_compute; reflexivity.
Defined.



Lemma list_directory_never_validates_witness :
  Tool.callTool failing_exec (fun _ => never) (fun _ _ => never) (fun _ _ => never) []
    (Tool.mkRequest "list_directory" None) []
  = (Fulfilled (Tool.mkResponse "目录: .

" false),
     [Tool.ExecuteRemoteCommand
        ("ls " +:+ String dquote ("." +:+ String dquote EmptyString))]).
Proof.
  pose proof (list_directory_never_validates failing_exec (fun _ => never)
                (fun _ _ => never) (fun _ _ => never) []
                (Tool.mkRequest "list_directory" None) [] eq_refl eq_refl)
    as (Hcalls & _ & Hanswer).
  specialize (Hanswer (Exec.mkResult "" "Permission denied" 1) eq_refl).
  rewrite (surjective_pairing (Tool.callTool _ _ _ _ _ _ _)), Hcalls, Hanswer.
  reflexivity.
Defined.

Lemma unlisted_tool_is_refused_witness :
  Tool.callTool echo_exec (fun _ => never) (fun _ _ => never) (fun _ _ => never) []
    (Tool.mkRequest "reboot" None) []
  = (Fulfilled (Tool.mkResponse "错误: Error: Unknown tool: reboot" true), []).
Proof.
  refine (unlisted_tool_is_refused echo_exec (fun _ => never) (fun _ _ => never)
            (fun _ _ => never) [] (Tool.mkRequest "reboot" None) [] _).
  intros Hin. cbn in Hin.
  repeat (apply elem_of_cons in Hin as [Heq|Hin]; [discriminate Heq|]). inversion Hin.
Defined.


Lemma read_file_reads_printed_argument_witness :
  snd (Tool.callTool echo_exec (fun _ => never) (fun _ _ => never) (fun _ _ => never) []
         (Tool.mkRequest "read_file" None) [])
  = [Tool.GetRemoteFileContent "undefined"]
  /\ snd (Tool.callTool echo_exec (fun _ => never) (fun _ _ => never) (fun _ _ => never) []
            (Tool.mkRequest "read_file" (Some {[ "path" := JNum 42 ]})) [])
     = [Tool.GetRemoteFileContent "42"].
Proof.
  split.
  - refine (proj1 (proj2 (read_file_reads_printed_argument echo_exec (fun _ => never)
                            (fun _ _ => never) (fun _ _ => never) []
                            (Tool.mkRequest "read_file" None) [] eq_refl eq_refl _ _))
              eq_refl);
      intros x; cbn; discriminate.
  - refine (proj1 (read_file_reads_printed_argument echo_exec (fun _ => never)
                     (fun _ _ => never) (fun _ _ => never) []
                     (Tool.mkRequest "read_file" (Some {[ "path" := JNum 42 ]})) []
                     eq_refl eq_refl _ _));
      intros x; vm_compute; discriminate.
Defined.

Lemma system_monitor_answers_soundly_witness :
  Tool.monitor_commands "memory" = ["free -h"; "cat /proc/meminfo | head -10"]
  /\ exists results,
       map echo_exec (Tool.monitor_commands "memory") = map Fulfilled results
       /\ "系统监控 (memory):

=== free -h ===
<free -h>

=== cat /proc/meminfo | head -10 ===
<cat /proc/meminfo | head -10>
"
          = "系统监控 (memory):

" +:+ blocks (Tool.monitor_commands "memory") results.
Proof.
  pose proof (system_monitor_answers_soundly echo_exec (fun _ => never)
                (fun _ _ => never) (fun _ _ => never) [1; 0] (monitor_request "memory") []
                (Tool.mkResponse "系统监控 (memory):

=== free -h ===
<free -h>

=== cat /proc/meminfo | head -10 ===
<cat /proc/meminfo | head -10>
" false)
                (map Tool.ExecuteRemoteCommand (Tool.monitor_commands "memory"))
                eq_refl eq_refl eq_refl) as (_ & Hlists & Htext).
  split; [exact (proj1 (proj2 Hlists) eq_refl) | exact Htext].
Defined.



Lemma served_resource_payload_witness :
  Resource.readResource sample_McpError sample_pathname echo_exec "2026-01-01T00:00:00.000Z"
    "linux:///system/disk" []
  = (Fulfilled
       [Resource.mkContents "linux:///system/disk" "application/json"
          ("{
  " +:+ String dquote ("disk_usage" +:+ String dquote (": " +:+ String dquote ("<df -h>"
           +:+ String dquote (",
  " +:+ String dquote ("timestamp" +:+ String dquote (": "
           +:+ String dquote ("2026-01-01T00:00:00.000Z" +:+ String dquote "
}"))))))))],
     [Tool.ExecuteRemoteCommand "df -h"]).
Proof.
  refine (served_resource_payload sample_McpError sample_pathname echo_exec
            "2026-01-01T00:00:00.000Z" "linux:///system/disk" [] "/system/disk" "df -h"
            "disk_usage" (sample_result "df -h") _ _ eq_refl).
  - vm_compute. reflexivity.
  - unfold served. in_list.
Defined.

Lemma resource_failures_are_internal_errors_witness :
  Resource.readResource sample_McpError sample_pathname echo_exec "2026-01-01T00:00:00.000Z"
    "linux:///system/uptime" []
  = (Rejected
       (sample_McpError Resource.InternalError
          ("Failed to fetch resource: "
           +:+ error_toString
                 (sample_McpError Resource.InvalidRequest
                    "Unknown resource: /system/uptime"))),
     []).
Proof.
  refine (proj1 (resource_failures_are_internal_errors sample_McpError sample_pathname
                   echo_exec "2026-01-01T00:00:00.000Z" "linux:///system/uptime" []
                   "/system/uptime" _) _).
  - vm_compute. reflexivity.
  - intros Hin. unfold served_paths, served in Hin. cbn in Hin.
    repeat (apply elem_of_cons in Hin as [Heq|Hin]; [discriminate Heq|]). inversion Hin.
Defined.

Lemma listed_resources_are_not_served_witness :
  exists path,
    sample_pathname "linux://system/info" = Return path
    /\ (path ∉ served_paths)
    /\ Resource.readResource sample_McpError sample_pathname echo_exec
         "2026-01-01T00:00:00.000Z" "linux://system/info" []
       = (Rejected
            (sample_McpError Resource.InternalError
               ("Failed to fetch resource: "
                +:+ error_toString
                      (sample_McpError Resource.InvalidRequest
                         ("Unknown resource: " +:+ path)))),
          []).
Proof.
  refine (listed_resources_are_not_served sample_McpError sample_pathname echo_exec
            "2026-01-01T00:00:00.000Z" []
            (Catalogue.mkResource "linux://system/info" "application/json" "系统信息"
               "远程Linux服务器的系统信息") _ _).
  - intros text path Hp. unfold sample_pathname. rewrite Hp. reflexivity.
  - unfold Catalogue.listResources. in_list.
Defined.

Lemma inert_arguments_run_no_substitution_witness :
  Shell.runs_substitution Shell.Unquoted (Tool.write_file_command "/etc/motd" "it's 5 o'clock")
  = false.
Proof.
  refine (proj1 (inert_arguments_run_no_substitution "/etc/motd" "it's 5 o'clock" false
                   eq_refl) eq_refl).
Defined.
